(** * Supermarket Data Hub frontend: session and job-status state machines

    A shallow embedding of the React components [QueryView], [App] and
    [ControlPanel]: the query cycle ([handleSubmit]), the conversation
    reset ([handleNewConversation]), the result-cell formatter and answer
    rendering, and the scrape/import triggers with their revert timers and
    the health poll.

    JavaScript values are an inductive type, numbers are IEEE-754 binary64
    values ([spec_float]) read through their exact rational value, React
    state updates are an explicit, ordered effect log that is folded over
    the component state, and the two halves of every [async] handler
    (before and after its [await]) are separate functions. *)

From Stdlib Require Import ZArith QArith Qround Qpower String Ascii List.
From Stdlib Require Import DecimalString DecimalPos DecimalN SpecFloat Lia Lqa Bool.
From stdpp Require Import base list strings.

Set Warnings "-register-all".
Open Scope Z_scope.

(** ** Characters and digit strings *)

Definition is_digit (c : ascii) : bool :=
  (48 <=? nat_of_ascii c)%nat && (nat_of_ascii c <=? 57)%nat.

Definition all_digits (s : string) : bool :=
  forallb is_digit (list_ascii_of_string s).

Definition zeros (n : nat) : string := string_of_list_ascii (repeat "0"%char n).

(** The decimal digits of a non-negative integer, ["0"] for zero. *)
Definition decimal (n : Z) : string :=
  NilEmpty.string_of_uint (N.to_uint (Z.to_N n)).

Definition split_at (i : nat) (s : string) : string * string :=
  let l := list_ascii_of_string s in
  (string_of_list_ascii (take i l), string_of_list_ascii (drop i l)).

Fixpoint span_digits (l : list ascii) : list ascii * list ascii :=
  match l with
  | [] => ([], [])
  | c :: l' =>
      if is_digit c
      then let '(a, b) := span_digits l' in (c :: a, b)
      else ([], l)
  end.

Definition strip_minus (l : list ascii) : list ascii :=
  match l with
  | c :: l' => if Ascii.eqb c "-" then l' else l
  | [] => l
  end.

(** [is_fixed_point f s]: [s] is an optional minus sign, one or more digits,
    a point and exactly [f] digits. *)
Definition is_fixed_point (f : nat) (s : string) : bool :=
  let '(ip, rest) := span_digits (strip_minus (list_ascii_of_string s)) in
  match ip, rest with
  | _ :: _, c :: fr => Ascii.eqb c "." && forallb is_digit fr && (length fr =? f)%nat
  | _, _ => false
  end.

(** ** Numbers

    A JavaScript Number is a binary64 value.  [S754_finite s m e] denotes
    [(-1)^s * m * 2^e]; all arithmetic below is on that exact value. *)

Module Num.

Definition mag (m : positive) (e : Z) : Q := (inject_Z (Zpos m) * Qpower 2 e)%Q.

Definition Qltb (a b : Q) : bool := negb (Qle_bool b a).

(** The binary64 encoding of a value: 53-bit mantissa, or exponent -1074. *)
Definition canon (m : positive) (e : Z) : positive * Z :=
  let shift := Z.min (53 - (Z.log2 (Zpos m) + 1)) (e + 1074) in
  if 0 <? shift then (Z.to_pos (Zpos m * 2 ^ shift), e - shift) else (m, e).

(** [rounds_to q m e]: the real [q] rounds (to nearest, ties to even) to the
    binary64 value [m * 2^e]. *)
Definition rounds_to (q : Q) (m : positive) (e : Z) : bool :=
  let '(m, e) := canon m e in
  let x := mag m e in
  let up := Qpower 2 (e - 1) in
  let down :=
    if Pos.eqb m 4503599627370496 && (-1074 <? e) then Qpower 2 (e - 2) else up in
  if Z.even (Zpos m)
  then Qle_bool (x - down) q && Qle_bool q (x + up)
  else Qltb (x - down) q && Qltb q (x + up).

Fixpoint adjust (fuel : nat) (x : Q) (n : Z) : Z :=
  match fuel with
  | O => n
  | S fuel =>
      if Qltb x (Qpower 10 (n - 1)) then adjust fuel x (n - 1)
      else if Qle_bool (Qpower 10 n) x then adjust fuel x (n + 1)
      else n
  end.

(** The [n] with [10^(n-1) <= m * 2^e < 10^n]. *)
Definition exponent10 (m : positive) (e : Z) : Z :=
  let l := Z.log2 (Zpos m) + e in
  adjust (2 + Z.to_nat (Z.abs l)) (mag m e) (l * 30103 / 100000 + 1).

(** Number::toString, step 5: the least [k] and the digits [s] (with the
    decimal exponent [n]) such that [s * 10^(n-k)] rounds to the value; of
    several [s], the closest to the value. *)
Fixpoint shortest (fuel : nat) (m : positive) (e : Z) (n k : Z) : Z * Z :=
  let x := mag m e in
  let scale := Qpower 10 (n - k) in
  let lo := Qfloor (x / scale) in
  let hi := lo + 1 in
  match fuel with
  | O => (lo, n)
  | S fuel =>
      let pick_hi := if hi =? 10 ^ k then (10 ^ (k - 1), n + 1) else (hi, n) in
      match rounds_to (inject_Z lo * scale) m e,
            rounds_to (inject_Z hi * scale) m e with
      | true, true =>
          let dlo := (x - inject_Z lo * scale)%Q in
          let dhi := (inject_Z hi * scale - x)%Q in
          if Qltb dlo dhi then (lo, n)
          else if Qltb dhi dlo then pick_hi
          else if Z.even lo then (lo, n) else pick_hi
      | true, false => (lo, n)
      | false, true => pick_hi
      | false, false => shortest fuel m e n (k + 1)
      end
  end.

(** Number::toString for a positive finite value. *)
Definition toString_pos (m : positive) (e : Z) : string :=
  let n0 := exponent10 m e in
  let '(s, n) := shortest (17 + Pos.size_nat m + Z.to_nat (Z.abs e)) m e n0 1 in
  let ds := decimal s in
  let k := Z.of_nat (String.length ds) in
  if (k <=? n) && (n <=? 21) then ds +:+ zeros (Z.to_nat (n - k))
  else if (0 <? n) && (n <=? 21) then
    let '(a, b) := split_at (Z.to_nat n) ds in a +:+ "." +:+ b
  else if (-6 <? n) && (n <=? 0) then "0." +:+ zeros (Z.to_nat (- n)) +:+ ds
  else
    let c := if n - 1 <? 0 then "-" else "+" in
    let ex := decimal (Z.abs (n - 1)) in
    if k =? 1 then ds +:+ "e" +:+ c +:+ ex
    else let '(a, b) := split_at 1 ds in a +:+ "." +:+ b +:+ "e" +:+ c +:+ ex.

Definition toString (x : spec_float) : string :=
  match x with
  | S754_nan => "NaN"
  | S754_zero _ => "0"
  | S754_infinity s => if s then "-Infinity" else "Infinity"
  | S754_finite s m e => (if s then "-" else "") +:+ toString_pos m e
  end.

(** Number.prototype.toFixed, steps 9.a-9.c: the digits of [n] with the
    point before the last [f] of them. *)
Definition fixed_digits (f : nat) (n : Z) : string :=
  let m := decimal n in
  if (f =? 0)%nat then m
  else
    let k := String.length m in
    let m := if (k <=? f)%nat then zeros (f + 1 - k) +:+ m else m in
    let k := String.length m in
    let '(a, b) := split_at (k - f) m in
    a +:+ "." +:+ b.

(** Number.prototype.toFixed(f), for [0 <= f <= 100]. *)
Definition toFixed (f : nat) (x : spec_float) : string :=
  match x with
  | S754_nan | S754_infinity _ => toString x
  | S754_zero _ => fixed_digits f 0
  | S754_finite s m e =>
      let sgn := if s then "-" else "" in
      let ax := mag m e in
      if Qle_bool (Qpower 10 21) ax then sgn +:+ toString_pos m e
      else sgn +:+ fixed_digits f (Qfloor (ax * Qpower 10 (Z.of_nat f) + (1 # 2))%Q)
  end.

(** The values on which [toFixed] prints fixed-point notation. *)
Definition below_1e21 (x : spec_float) : bool :=
  match x with
  | S754_zero _ => true
  | S754_finite _ m e => Qltb (mag m e) (Qpower 10 21)
  | S754_nan | S754_infinity _ => false
  end.

(** [parses_to q x]: the decimal literal of value [q] denotes the number [x]. *)
Definition parses_to (q : Q) (x : spec_float) : bool :=
  match x with
  | S754_finite false m e => rounds_to q m e
  | _ => false
  end.

Definition of_nat (n : nat) : spec_float :=
  match n with
  | O => S754_zero false
  | S _ => S754_finite false (Pos.of_nat n) 0
  end.

End Num.

(** The numbers of the specification's example response. *)
Definition num_6_9 : spec_float := S754_finite false 7768709357214106 (-50).
Definition num_7_25 : spec_float := S754_finite false 8162774324609024 (-50).
Definition num_1e21 : spec_float := S754_finite false 7629394531250000 17.

(** ** JavaScript values

    What [JSON.parse] produces, plus [undefined] for an absent property.
    A string is a sequence of code units below 256. *)

Inductive Value :=
| Undefined
| Null
| Bool (b : bool)
| Num (x : spec_float)
| Str (s : string)
| Arr (items : list Value)
| Obj (fields : list (string * Value)).

(** ** Exceptions *)

(** A thrown value: a [TypeError] or [RangeError] of the language or a
    library, or the error with which axios rejects a request.  Each has a
    [message]; the last has, when the server answered with a status outside
    2xx, a [response] whose [data] is the body. *)
Inductive Exn :=
| TypeError (message : string)
| RangeError (message : string)
| AxiosError (message : string) (response : option Value).

Inductive Result (A : Type) :=
| Ok (a : A)
| Throw (e : Exn).
Arguments Ok {A} a.
Arguments Throw {A} e.

Global Instance Result_ret : MRet Result := fun A a => Ok a.

Global Instance Result_bind : MBind Result := fun A B k r =>
  match r with
  | Ok a => k a
  | Throw e => Throw e
  end.

(** [try r catch h] *)
Definition try_catch {A} (r : Result A) (h : Exn -> Result A) : Result A :=
  match r with
  | Ok a => Ok a
  | Throw e => h e
  end.

Fixpoint mapM_index {A B} (f : nat -> A -> Result B) (i : nat) (l : list A)
  : Result (list B) :=
  match l with
  | [] => Ok []
  | a :: l =>
      b ← f i a;
      bs ← mapM_index f (S i) l;
      Ok (b :: bs)
  end.

(** ** The host

    What the browser and the libraries provide and the repository does not
    define: [Date.parse] (implementation-defined beyond the ISO format),
    date-fns's rendering of a valid date under the pattern
    ['dd/MM/yyyy HH:mm'] in the local time zone, the conversion of a string
    to a number, the messages of the engine's [TypeError]s, and the i18n
    resources. *)

Class Host := {
  Date_parse : string -> option Z;
  date_fns_pattern : Z -> string;
  StringToNumber : string -> spec_float;
  cannot_read : Value -> string -> string;
  not_a_function : string -> string;
  translation : string -> option string
}.

(** ** Operations of the language *)

Module JS.

(** ToBoolean *)
Definition truthy (v : Value) : bool :=
  match v with
  | Undefined | Null => false
  | Bool b => b
  | Num (S754_zero _) | Num S754_nan => false
  | Num _ => true
  | Str s => negb (String.eqb s "")
  | Arr _ | Obj _ => true
  end.

(** [a || b] *)
Definition or (a b : Value) : Value := if truthy a then a else b.

Definition nullish (v : Value) : bool :=
  match v with
  | Undefined | Null => true
  | _ => false
  end.

Fixpoint join (sep : string) (l : list string) : string :=
  match l with
  | [] => ""
  | [s] => s
  | s :: l => s +:+ sep +:+ join sep l
  end.

(** [String(v)], which is also the conversion of a template literal. *)
Fixpoint String (v : Value) : string :=
  match v with
  | Undefined => "undefined"
  | Null => "null"
  | Bool b => if b then "true" else "false"
  | Num x => Num.toString x
  | Str s => s
  | Arr items =>
      join "," (map (fun v => if nullish v then ""%string else String v) items)
  | Obj _ => "[object Object]"
  end.

Fixpoint lookup (p : string) (fields : list (string * Value)) : Value :=
  match fields with
  | [] => Undefined
  | (k, v) :: fields => if String.eqb k p then v else lookup p fields
  end.

(** [v.p] on a value that is neither [null] nor [undefined], for a name [p]
    that no prototype defines ([sql], [data], [columns], [error],
    [message], [detail]). *)
Definition field (v : Value) (p : string) : Value :=
  match v with
  | Obj fields => lookup p fields
  | _ => Undefined
  end.

(** [v.p]: reading a property of [null] or [undefined] throws. *)
Definition get `{Host} (v : Value) (p : string) : Result Value :=
  if nullish v then Throw (TypeError (cannot_read v p)) else Ok (field v p).

(** [v?.p] *)
Definition get_opt (v : Value) (p : string) : Value :=
  if nullish v then Undefined else field v p.

(** [list.includes(v)] for a list of string literals. *)
Definition includes (l : list string) (v : Value) : bool :=
  match v with
  | Str s => existsb (String.eqb s) l
  | _ => false
  end.

(** [x > 0] on numbers. *)
Definition is_positive (x : spec_float) : bool :=
  match x with
  | S754_infinity false | S754_finite false _ _ => true
  | _ => false
  end.

End JS.

Import JS.

(** ** QueryView: the transcript and its rendering *)

(** An item of [history]: [{type: 'question', content}] or
    [{type: 'answer', question, sql, data, columns, error}]; an absent field
    is [Undefined]. *)
Inductive Entry :=
| Question (content : string)
| Answer (question sql data columns error : Value).

(** What an item of [history] renders to: the user's message, the error
    box, the results table (header cells and body rows), the "no results"
    info box, or a bare text node. *)
Inductive Node :=
| UserMessage (content : string)
| ErrorBox (error : Value)
| ResultsTable (head : list Value) (body : list (list string))
| NoResults
| Text (s : string).

Section Rendering.
Context `{Host}.

(** TimeClip: no time value beyond 8.64e15 ms from the epoch; a fraction of
    a millisecond is dropped. *)
Definition TimeClip (x : spec_float) : option Z :=
  match x with
  | S754_zero _ => Some 0
  | S754_nan | S754_infinity _ => None
  | S754_finite s m e =>
      if Num.Qltb (inject_Z 8640000000000000) (Num.mag m e) then None
      else Some (if s then - Qfloor (Num.mag m e) else Qfloor (Num.mag m e))
  end.

(** [new Date(v)]: the time value, [None] for an Invalid Date. *)
Definition new_Date (v : Value) : option Z :=
  match v with
  | Undefined => None
  | Null => Some 0
  | Bool b => Some (if b then 1 else 0)
  | Num x => TimeClip x
  | Str _ | Arr _ | Obj _ => Date_parse (JS.String v)
  end.

(** date-fns [format(date, 'dd/MM/yyyy HH:mm')]: a RangeError on an
    Invalid Date. *)
Definition format (d : option Z) : Result string :=
  match d with
  | Some t => Ok (date_fns_pattern t)
  | None => Throw (RangeError "Invalid time value")
  end.

Definition price_columns : list string := ["ItemPrice"; "price"; "ItemPrice"].
Definition date_columns : list string := ["LastUpdate"; "last_update"].

(** The body of [row.map((cell, j) => ...)] up to the returned [<td>]. *)
Definition formatCell (cell colName : Value) : Result string :=
  let isPrice := includes price_columns colName in
  let isDate := includes date_columns colName in
  match cell with
  | Null => Ok "N/A"
  | _ =>
      match isPrice, cell with
      | true, Num x => Ok (Num.toFixed 2 x)
      | _, _ =>
          if isDate
          then try_catch (format (new_Date cell)) (fun _ => Ok (JS.String cell))
          else Ok (JS.String cell)
      end
  end.

(** [t(`columns.${col}`, col)] *)
Definition header (col : Value) : Value :=
  match translation ("columns." +:+ JS.String col) with
  | Some label => Str label
  | None => col
  end.

(** [v.length] of a value that is neither [null] nor [undefined]. *)
Definition length_of (v : Value) : Value :=
  match v with
  | Arr items => Num (Num.of_nat (length items))
  | Str s => Num (Num.of_nat (String.length s))
  | Obj fields => JS.lookup "length" fields
  | _ => Undefined
  end.

(** [v > 0] *)
Definition gt_zero (v : Value) : bool :=
  match v with
  | Undefined | Null => false
  | Bool b => b
  | Num x => JS.is_positive x
  | Str _ | Arr _ | Obj _ => JS.is_positive (StringToNumber (JS.String v))
  end.

(** [v === 0] *)
Definition is_zero (v : Value) : bool :=
  match v with
  | Num (S754_zero _) => true
  | _ => false
  end.

(** What React shows for a falsy value in a child position. *)
Definition falsy_child (v : Value) : list Node :=
  match v with
  | Num (S754_zero _) => [Text "0"]
  | Num S754_nan => [Text "NaN"]
  | _ => []
  end.

(** [l.map(f)] on a value: only an array has [map]. *)
Definition map_value {B} (f : nat -> Value -> Result B) (l : Value)
  : Result (list B) :=
  match l with
  | Arr items => mapM_index f 0 items
  | Undefined | Null => Throw (TypeError (cannot_read l "map"))
  | _ => Throw (TypeError (not_a_function "map"))
  end.

(** [item.columns[j]], [item.columns] being an array. *)
Definition column (columns : Value) (j : nat) : Value :=
  match columns with
  | Arr cols => default Undefined (cols !! j)
  | _ => Undefined
  end.

Definition renderTable (data columns : Value) : Result Node :=
  head ← map_value (fun _ col => Ok (header col)) columns;
  body ← map_value (fun _ row =>
            map_value (fun j cell => formatCell cell (column columns j)) row) data;
  Ok (ResultsTable head body).

(** The JSX of one [history] item. *)
Definition renderEntry (item : Entry) : Result (list Node) :=
  match item with
  | Question content => Ok [UserMessage content]
  | Answer _ _ data columns error =>
      if JS.truthy error then Ok [ErrorBox error]
      else if negb (JS.truthy data) then Ok (falsy_child data ++ falsy_child data)
      else
        table ← (if gt_zero (length_of data)
                 then t ← renderTable data columns; Ok [t]
                 else Ok []);
        Ok (table ++ if is_zero (length_of data) then [NoResults] else [])
  end.

End Rendering.

(** ** QueryView and App: the conversation state *)

Inductive Role := user | assistant.

(** An item of [conversationHistory]: [{role, content}]. *)
Record Turn := { role : Role; content : string }.

(** The body of [POST /query]. *)
Record Request := { req_question : string; req_conversation_history : list Turn }.

(** [App] owns [history] and [conversationHistory]; [QueryView] owns
    [question] and [loading]. *)
Record State := {
  question : string;
  loading : bool;
  history : list Entry;
  conversationHistory : list Turn
}.

Definition initial : State :=
  {| question := ""; loading := false; history := []; conversationHistory := [] |}.

(** What a handler does, in program order: the state setters it calls and
    the request it issues. *)
Inductive Effect :=
| preventDefault
| setQuestion (s : string)
| setLoading (b : bool)
| appendHistory (e : Entry)
| appendConversation (u a : Turn)
| clearHistory
| clearConversation
| postQuery (r : Request).

Definition apply (st : State) (eff : Effect) : State :=
  match eff with
  | preventDefault | postQuery _ => st
  | setQuestion s =>
      {| question := s; loading := loading st; history := history st;
         conversationHistory := conversationHistory st |}
  | setLoading b =>
      {| question := question st; loading := b; history := history st;
         conversationHistory := conversationHistory st |}
  | appendHistory e =>
      {| question := question st; loading := loading st;
         history := history st ++ [e];
         conversationHistory := conversationHistory st |}
  | appendConversation u a =>
      {| question := question st; loading := loading st;
         history := history st;
         conversationHistory := conversationHistory st ++ [u; a] |}
  | clearHistory =>
      {| question := question st; loading := loading st; history := [];
         conversationHistory := conversationHistory st |}
  | clearConversation =>
      {| question := question st; loading := loading st;
         history := history st; conversationHistory := [] |}
  end.

Definition run (effs : list Effect) (st : State) : State := fold_left apply effs st.

Definition requests (effs : list Effect) : list Request :=
  omap (fun eff => match eff with postQuery r => Some r | _ => None end) effs.

(** String.prototype.trim on code units below 256: the white space and line
    terminators are TAB, LF, VT, FF, CR, SP and NBSP. *)
Definition is_space (c : ascii) : bool :=
  match nat_of_ascii c with
  | 9 | 10 | 11 | 12 | 13 | 32 | 160 => true
  | _ => false
  end%nat.

Fixpoint trim_start (l : list ascii) : list ascii :=
  match l with
  | [] => []
  | c :: l' => if is_space c then trim_start l' else l
  end.

Definition trim (s : string) : string :=
  string_of_list_ascii
    (rev (trim_start (rev (trim_start (list_ascii_of_string s))))).

Definition SUGGESTIONS : list string := ["cheapestMilk"; "pastaPrices"; "tlvStores"].

Section Handlers.
Context `{Host}.

(** [t(key)] *)
Definition t (key : string) : string := default key (translation key).

(** [handleSubmit] up to its [await]. *)
Definition handleSubmit_begin (st : State) : list Effect :=
  preventDefault ::
  if negb (JS.truthy (Str (trim (question st)))) then []
  else
    let userQuestion := question st in
    [ setQuestion "";
      setLoading true;
      appendHistory (Question userQuestion);
      postQuery {| req_question := userQuestion;
                   req_conversation_history := conversationHistory st |} ].

(** [error.response?.data?.detail] *)
Definition detail (error : Exn) : Value :=
  match error with
  | AxiosError _ (Some data) => JS.get_opt data "detail"
  | _ => Undefined
  end.

(** [error.message] *)
Definition message_of (error : Exn) : Value :=
  match error with
  | TypeError message | RangeError message | AxiosError message _ => Str message
  end.

(** The [try] block of [handleSubmit] after the [await]; [response] is
    what the awaited promise settled with, [Ok] carrying [response.data]. *)
Definition handleSubmit_try (userQuestion : string) (response : Result Value)
  : Result (list Effect) :=
  data ← response;
  sqlGenerated ← JS.get data "sql";
  Ok [ appendHistory (Answer (Str userQuestion) sqlGenerated
                        (JS.field data "data") (JS.field data "columns")
                        (JS.field data "error"));
       appendConversation
         {| role := user; content := userQuestion |}
         {| role := assistant;
            content := "I searched for: " +:+ userQuestion
                       +:+ ". The SQL query was: " +:+ JS.String sqlGenerated |} ].

Definition handleSubmit_catch (error : Exn) : list Effect :=
  [ appendHistory
      (Answer Undefined Undefined Undefined Undefined
         (JS.or (JS.or (detail error) (message_of error))
                (Str "Failed to process query"))) ].

(** [handleSubmit] from its [await] on: [try], [catch], [finally]. *)
Definition handleSubmit_resume (userQuestion : string) (response : Result Value)
  : list Effect :=
  match handleSubmit_try userQuestion response with
  | Ok effs => effs
  | Throw error => handleSubmit_catch error
  end ++ [setLoading false].

(** [App.handleNewConversation] *)
Definition handleNewConversation : list Effect := [clearHistory; clearConversation].

(** The [disabled] attributes of the form and the conditions under which
    the buttons are rendered. *)
Definition input_disabled (st : State) : bool := loading st.

Definition submit_disabled (st : State) : bool :=
  loading st || negb (JS.truthy (Str (trim (question st)))).

Definition suggestions_shown (st : State) : bool := (length (history st) =? 0)%nat.

Definition new_conversation_shown (st : State) : bool := (0 <? length (history st))%nat.

(** *** The session: the state and the requests in flight

    Each suspended [handleSubmit] holds the [userQuestion] it captured. *)
Record Session := { ui : State; in_flight : list string }.

Definition session_start : Session := {| ui := initial; in_flight := [] |}.

Inductive Event :=
| Change (value : string)
| Suggestion (key : string)
| Submit
| Settle (i : nat) (response : Result Value)
| NewConversation.

(** What the page lets the user do: a disabled input takes no text, a
    disabled submit button submits no form, a button that is not rendered
    cannot be clicked; a request settles once, while in flight. *)
Definition enabled (s : Session) (ev : Event) : bool :=
  match ev with
  | Change _ => negb (input_disabled (ui s))
  | Suggestion key => suggestions_shown (ui s) && existsb (String.eqb key) SUGGESTIONS
  | Submit => negb (submit_disabled (ui s))
  | Settle i _ => (i <? length (in_flight s))%nat
  | NewConversation => new_conversation_shown (ui s)
  end.

(** One callback, run to completion. *)
Definition step (s : Session) (ev : Event) : Session :=
  match ev with
  | Change value => {| ui := run [setQuestion value] (ui s); in_flight := in_flight s |}
  | Suggestion key =>
      {| ui := run [setQuestion (t ("suggestions." +:+ key))] (ui s);
         in_flight := in_flight s |}
  | Submit =>
      let effs := handleSubmit_begin (ui s) in
      {| ui := run effs (ui s);
         in_flight := in_flight s ++ map req_question (requests effs) |}
  | Settle i response =>
      match in_flight s !! i with
      | Some userQuestion =>
          {| ui := run (handleSubmit_resume userQuestion response) (ui s);
             in_flight := delete i (in_flight s) |}
      | None => s
      end
  | NewConversation =>
      {| ui := run handleNewConversation (ui s); in_flight := in_flight s |}
  end.

Definition steps (evs : list Event) (s : Session) : Session := fold_left step evs s.

(** A run through the page: every event is enabled when it happens. *)
Fixpoint allowed (evs : list Event) (s : Session) : bool :=
  match evs with
  | [] => true
  | ev :: evs => enabled s ev && allowed evs (step s ev)
  end.

End Handlers.

(** ** ControlPanel: job triggers, revert timers and the health poll *)

Module ControlPanel.

(** The values of [scrapeStatus] and [importStatus]. *)
Inductive Status := idle | loading | success | error.

Inductive Job := scrape | import.

Global Instance Job_eq_dec : EqDecision Job.
Proof. solve_decision. Defined.

Definition other (k : Job) : Job :=
  match k with
  | scrape => import
  | import => scrape
  end.

Record State := {
  health : Value;
  scrapeStatus : Status;
  importStatus : Status;
  message : Value
}.

Definition initial : State :=
  {| health := Null; scrapeStatus := idle; importStatus := idle; message := Str "" |}.

Definition status (k : Job) (st : State) : Status :=
  match k with
  | scrape => scrapeStatus st
  | import => importStatus st
  end.

(** The setters, the requests and [setTimeout(callback, ms)] with the
    state update its callback makes. *)
Inductive Effect :=
| setHealth (v : Value)
| setScrapeStatus (s : Status)
| setImportStatus (s : Status)
| setMessage (v : Value)
| getHealth
| postScrape
| postImport
| setTimeout (callback : Effect) (ms : Z).

Definition apply (st : State) (eff : Effect) : State :=
  match eff with
  | setHealth v =>
      {| health := v; scrapeStatus := scrapeStatus st;
         importStatus := importStatus st; message := message st |}
  | setScrapeStatus s =>
      {| health := health st; scrapeStatus := s;
         importStatus := importStatus st; message := message st |}
  | setImportStatus s =>
      {| health := health st; scrapeStatus := scrapeStatus st;
         importStatus := s; message := message st |}
  | setMessage v =>
      {| health := health st; scrapeStatus := scrapeStatus st;
         importStatus := importStatus st; message := v |}
  | getHealth | postScrape | postImport | setTimeout _ _ => st
  end.

Definition run (effs : list Effect) (st : State) : State := fold_left apply effs st.

Definition timeouts (effs : list Effect) : list (Effect * Z) :=
  omap (fun eff => match eff with
                   | setTimeout callback ms => Some (callback, ms)
                   | _ => None
                   end) effs.

Section Handlers.
Context `{Host}.

(** [checkHealth], before and after its [await]. *)
Definition checkHealth_begin : list Effect := [getHealth].

Definition checkHealth_resume (response : Result Value) : list Effect :=
  match response with
  | Ok data => [setHealth data]
  | Throw err =>
      [setHealth (Obj [("status", Str "error"); ("error", message_of err)])]
  end.

(** [triggerScrape], before and after its [await]. *)
Definition triggerScrape_begin : list Effect :=
  [setScrapeStatus loading; setMessage (Str ""); postScrape].

Definition triggerScrape_resume (response : Result Value) : list Effect :=
  match (data ← response; JS.get data "message") with
  | Ok msg =>
      [ setMessage msg;
        setScrapeStatus success;
        setTimeout (setScrapeStatus idle) 3000 ]
  | Throw err =>
      [ setMessage (JS.or (detail err) (Str "Failed to start scraper"));
        setScrapeStatus error;
        setTimeout (setScrapeStatus idle) 3000 ]
  end.

(** [triggerImport], before and after its [await]. *)
Definition triggerImport_begin : list Effect :=
  [setImportStatus loading; setMessage (Str ""); postImport].

Definition triggerImport_resume (response : Result Value) : list Effect :=
  match (data ← response; JS.get data "message") with
  | Ok msg =>
      [ setMessage msg;
        setImportStatus success;
        setTimeout (setImportStatus idle) 3000 ]
  | Throw err =>
      [ setMessage (JS.or (detail err) (Str "Failed to start importer"));
        setImportStatus error;
        setTimeout (setImportStatus idle) 3000 ]
  end.

Definition trigger_begin (k : Job) : list Effect :=
  match k with
  | scrape => triggerScrape_begin
  | import => triggerImport_begin
  end.

Definition trigger_resume (k : Job) (response : Result Value) : list Effect :=
  match k with
  | scrape => triggerScrape_resume response
  | import => triggerImport_resume response
  end.

(** The buttons' [disabled] attributes. *)
(** The callback of the timer that [trigger k] sets. *)
Definition revert (k : Job) : Effect :=
  match k with
  | scrape => setScrapeStatus idle
  | import => setImportStatus idle
  end.

Definition button_disabled (k : Job) (st : State) : bool :=
  match status k st with
  | loading => true
  | _ => false
  end.

(** *** The mounted panel in time

    A pending timer has the time at which it is due and its callback.
    [owner] is not in the source, which keeps no handle on its timers:
    it records, for the statements below, which call of a trigger
    scheduled the timer.  Calls are numbered in order; [calls] lists
    their jobs, [pending] the calls suspended at their [await]. *)
Record Timer := { due : Z; callback : Effect; owner : nat }.

Record World := {
  panel : State;
  now : Z;
  timers : list Timer;
  calls : list Job;
  pending : list nat;
  health_in_flight : nat
}.

(** After the mount effect: [checkHealth()] has been called and the
    interval of 10000 ms is set. *)
Definition mounted : World :=
  {| panel := initial; now := 0; timers := []; calls := []; pending := [];
     health_in_flight := 1 |}.

Inductive Event :=
| Click (k : Job)
| Reply (id : nat) (response : Result Value)
| HealthReply (response : Result Value)
| Elapse (ms : Z).

Definition enabled (w : World) (ev : Event) : bool :=
  match ev with
  | Click k => negb (button_disabled k (panel w))
  | Reply id _ => bool_decide (id ∈ pending w)
  | HealthReply _ => (0 <? health_in_flight w)%nat
  | Elapse ms => 0 <=? ms
  end.

Definition schedule (w : World) (id : nat) (effs : list Effect) : list Timer :=
  map (fun '(cb, ms) => {| due := now w + ms; callback := cb; owner := id |})
      (timeouts effs).

Definition is_due (at_ : Z) (tm : Timer) : bool := due tm <=? at_.

(** The ticks of [setInterval(checkHealth, 10000)] in [(from, to]], each
    of which calls [checkHealth]. *)
Definition ticks (from to : Z) : nat := Z.to_nat (to / 10000 - from / 10000).

Definition step (w : World) (ev : Event) : World :=
  match ev with
  | Click k =>
      {| panel := run (trigger_begin k) (panel w); now := now w;
         timers := timers w; calls := calls w ++ [k];
         pending := pending w ++ [length (calls w)];
         health_in_flight := health_in_flight w |}
  | Reply id response =>
      match calls w !! id with
      | Some k =>
          if bool_decide (id ∈ pending w) then
            let effs := trigger_resume k response in
            {| panel := run effs (panel w); now := now w;
               timers := timers w ++ schedule w id effs; calls := calls w;
               pending := filter (fun i => i ≠ id) (pending w);
               health_in_flight := health_in_flight w |}
          else w
      | None => w
      end
  | HealthReply response =>
      {| panel := run (checkHealth_resume response) (panel w); now := now w;
         timers := timers w; calls := calls w; pending := pending w;
         health_in_flight := pred (health_in_flight w) |}
  | Elapse ms =>
      let at_ := now w + ms in
      {| panel := run (map callback (filter (fun tm => is_due at_ tm) (timers w)))
                      (panel w);
         now := at_;
         timers := filter (fun tm => negb (is_due at_ tm)) (timers w);
         calls := calls w; pending := pending w;
         health_in_flight :=
           (health_in_flight w + ticks (now w) at_)%nat |}
  end.

Definition steps (evs : list Event) (w : World) : World := fold_left step evs w.

Fixpoint allowed (evs : list Event) (w : World) : bool :=
  match evs with
  | [] => true
  | ev :: evs => enabled w ev && allowed evs (step w ev)
  end.

(** The most recent call of the trigger of job [k]. *)
Definition latest (k : Job) (w : World) : option nat :=
  last (filter (fun i => bool_decide (calls w !! i = Some k)) (seq 0 (length (calls w)))).

(** The job whose status a callback sets. *)
Definition job_of (cb : Effect) : Job :=
  match cb with
  | setImportStatus _ => import
  | _ => scrape
  end.

(** Every pending timer carries the revert callback of some job. *)
Definition reverts_only (w : World) : Prop :=
  forall tm, tm ∈ timers w -> exists k, callback tm = revert k.

(** Job [j] is at rest: none of its calls is suspended and none of its
    timers is pending. *)
Definition quiet (j : Job) (w : World) : Prop :=
  (forall id, id ∈ pending w -> calls w !! id <> Some j) /\
  (forall tm, tm ∈ timers w -> callback tm = revert (other j)).

Definition scraper_busy : Result Value :=
  Throw (AxiosError "Request failed with status code 409"
           (Some (Obj [("detail", Str "scraper busy")]))).

Definition started : Result Value := Ok (Obj [("message", Str "Scraper started")]).

Definition retrigger : list Event :=
  [ Click scrape; Reply 0 started; Elapse 1000;
    Click scrape; Elapse 1000; Reply 1 started ].

End Handlers.

End ControlPanel.

(** ** A host for the closed examples

    A browser whose local time zone is UTC and whose locale resources are
    empty.  [Date.parse] is given on the date-only ISO form [YYYY-MM-DD],
    the string-to-number conversion on the empty string and on unsigned
    decimal integers; the messages are V8's. *)

Module ExampleHost.

Definition pad (width : nat) (n : Z) : string :=
  let ds := decimal n in
  zeros (width - String.length ds) +:+ ds.

(** Days since 1970-01-01 to year, month, day of the proleptic Gregorian
    calendar. *)
Definition civil_from_days (days : Z) : Z * Z * Z :=
  let z := days + 719468 in
  let era := z / 146097 in
  let doe := z - era * 146097 in
  let yoe := (doe - doe / 1460 + doe / 36524 - doe / 146096) / 365 in
  let doy := doe - (365 * yoe + yoe / 4 - yoe / 100) in
  let mp := (5 * doy + 2) / 153 in
  let d := doy - (153 * mp + 2) / 5 + 1 in
  let m := if mp <? 10 then mp + 3 else mp - 9 in
  (yoe + era * 400 + (if m <=? 2 then 1 else 0), m, d).

Definition days_from_civil (y m d : Z) : Z :=
  let y := if m <=? 2 then y - 1 else y in
  let era := y / 400 in
  let yoe := y - era * 400 in
  let doy := (153 * (if 2 <? m then m - 3 else m + 9) + 2) / 5 + d - 1 in
  let doe := yoe * 365 + yoe / 4 - yoe / 100 + doy in
  era * 146097 + doe - 719468.

Definition dd_MM_yyyy_HH_mm (time : Z) : string :=
  let '(y, m, d) := civil_from_days (time / 86400000) in
  let ms := time mod 86400000 in
  pad 2 d +:+ "/" +:+ pad 2 m +:+ "/" +:+ pad 4 y +:+ " "
  +:+ pad 2 (ms / 3600000) +:+ ":" +:+ pad 2 (ms mod 3600000 / 60000).

Definition number_of (s : string) : option Z :=
  if all_digits s && negb (String.eqb s "")
  then option_map (fun u => Z.of_N (N.of_uint u)) (NilEmpty.uint_of_string s)
  else None.

Definition parse_date (s : string) : option Z :=
  match list_ascii_of_string s with
  | [y1; y2; y3; y4; "-"; m1; m2; "-"; d1; d2]%char =>
      y ← number_of (string_of_list_ascii [y1; y2; y3; y4]);
      m ← number_of (string_of_list_ascii [m1; m2]);
      d ← number_of (string_of_list_ascii [d1; d2]);
      if (1 <=? m) && (m <=? 12) && (1 <=? d)
         && (d <=? days_from_civil (y + m / 12) (m mod 12 + 1) 1 - days_from_civil y m 1)
      then Some (days_from_civil y m d * 86400000)
      else None
  | _ => None
  end.

Definition to_number (s : string) : spec_float :=
  if String.eqb s "" then S754_zero false
  else match number_of s with
       | Some 0 => S754_zero false
       | Some (Zpos p) => S754_finite false p 0
       | _ => S754_nan
       end.

Definition host : Host :=
  {| Date_parse := parse_date;
     date_fns_pattern := dd_MM_yyyy_HH_mm;
     StringToNumber := to_number;
     cannot_read v p :=
       "Cannot read properties of " +:+ JS.String v +:+ " (reading '" +:+ p +:+ "')";
     not_a_function p := p +:+ " is not a function";
     translation := fun _ => None |}.

End ExampleHost.

(** The mocked success response of the specification's first example. *)
Definition example_response : Value :=
  Obj [ ("sql", Str "SELECT ...");
        ("columns", Arr [Str "StoreName"; Str "ItemPrice"]);
        ("data", Arr [ Arr [Str "Store A"; Num num_6_9];
                       Arr [Str "Store B"; Num num_7_25] ]) ].

(** ** The vocabulary of the properties *)

Definition is_answer (e : Entry) : bool :=
  match e with
  | Answer _ _ _ _ _ => true
  | Question _ => false
  end.

(** The request is rejected, or the body has no readable [sql]. *)
Definition thrown (response : Result Value) : bool :=
  match response with
  | Throw _ | Ok Undefined | Ok Null => true
  | Ok _ => false
  end.

(** The response shape of the specification (section 6):
    [{sql: string, data: rows, columns: names, error?: string}]. *)
Definition is_string (v : Value) : bool :=
  match v with
  | Str _ => true
  | _ => false
  end.

Definition is_array_of (p : Value -> bool) (v : Value) : bool :=
  match v with
  | Arr items => forallb p items
  | _ => false
  end.

Definition well_formed_payload (data : Value) : bool :=
  match data with
  | Obj _ =>
      is_string (JS.field data "sql")
      && is_array_of (is_array_of (fun _ => true)) (JS.field data "data")
      && is_array_of is_string (JS.field data "columns")
      && (is_string (JS.field data "error") || JS.nullish (JS.field data "error"))
  | _ => false
  end.

(** A failure in the specification's sense (section 4.3): network error or
    status outside 2xx (the request is rejected), or malformed payload. *)
Definition spec_failure (response : Result Value) : bool :=
  match response with
  | Throw _ => true
  | Ok data => negb (well_formed_payload data)
  end.

Definition is_user (tn : Turn) : bool :=
  match role tn with
  | user => true
  | assistant => false
  end.

(** Consecutive (user, assistant) pairs. *)
Fixpoint paired (c : list Turn) : bool :=
  match c with
  | [] => true
  | u :: a :: c => is_user u && negb (is_user a) && paired c
  | [_] => false
  end.

Definition exchange (qa : string * string) : list Turn :=
  [ {| role := user; content := qa.1 |}; {| role := assistant; content := qa.2 |} ].

Definition exchanges (qas : list (string * string)) : list Turn :=
  concat (map exchange qas).

(** The preference order of the specification: the first candidate that is
    present (truthy, as [||] tests it), else the fallback. *)
Fixpoint prefer (candidates : list Value) (fallback : Value) : Value :=
  match candidates with
  | [] => fallback
  | c :: candidates => if JS.truthy c then c else prefer candidates fallback
  end.

(** ** LanguageSwitcher, i18n and the direction of the document *)

Module Language.

(** [language] is [i18n.language], [item] the ['language'] item of
    [localStorage] ([None] when there is none), [dir] is
    [document.documentElement.dir]. *)
Record Env := { language : string; item : option string; dir : string }.

(** i18n.js: [localStorage.getItem('language') || 'en']. *)
Definition savedLanguage (stored : option string) : string :=
  match stored with
  | Some lang => if JS.truthy (Str lang) then lang else "en"
  | None => "en"
  end.

(** [lang === 'heb' ? 'rtl' : 'ltr'] *)
Definition direction (lang : string) : string :=
  if String.eqb lang "heb" then "rtl" else "ltr".

(** The effect of [App] that follows [i18n.language]. *)
Definition App_effect (env : Env) : Env :=
  {| language := language env; item := item env;
     dir := direction (language env) |}.

(** The page once loaded: i18n initialised with [lng: savedLanguage], [App]
    mounted. *)
Definition load (stored : option string) : Env :=
  App_effect {| language := savedLanguage stored; item := stored; dir := "" |}.

(** [LanguageSwitcher.toggleLanguage], followed by the effect of [App]. *)
Definition toggleLanguage (env : Env) : Env :=
  let newLang := if String.eqb (language env) "en" then "heb" else "en" in
  App_effect {| language := newLang; item := Some newLang;
                dir := direction newLang |}.

Definition toggles (n : nat) (env : Env) : Env := Nat.iter n toggleLanguage env.

End Language.

(** ** ControlPanel: what is shown *)

Module PanelView.
Import ControlPanel.

(** The health card: the spinner, "All Systems Operational", or
    "System Error:" with [health.error]. *)
Inductive HealthCard := Checking | Operational | SystemError (error : Value).

(** [v === s] for a string literal [s]. *)
Definition is_literal (v : Value) (s : string) : bool :=
  match v with
  | Str s' => String.eqb s' s
  | _ => false
  end.

Definition healthCard `{Host} (health : Value) : Result HealthCard :=
  match health with
  | Null => Ok Checking
  | _ =>
      status ← JS.get health "status";
      if is_literal status "ok" then Ok Operational
      else Ok (SystemError (JS.field health "error"))
  end.

(** The content of a trigger button. *)
Inductive ButtonLabel := Running | Started | Failed | Start.

Definition buttonLabel (s : Status) : ButtonLabel :=
  match s with
  | loading => Running
  | success => Started
  | error => Failed
  | idle => Start
  end.

Definition is_error (s : Status) : bool :=
  match s with
  | error => true
  | _ => false
  end.

(** [{message && (<div className={...}>{message}</div>)}]: the box with its
    class and content; a falsy number is shown as bare text. *)
Inductive MessageArea :=
| MessageBox (className : string) (content : Value)
| BareText (s : string)
| Nothing.

Definition messageArea (st : State) : MessageArea :=
  if JS.truthy (message st)
  then MessageBox
         ("message-box fade-in "
          +:+ (if is_error (scrapeStatus st) || is_error (importStatus st)
               then "error" else "success"))
         (message st)
  else match message st with
       | Num (S754_zero _) => BareText "0"
       | Num S754_nan => BareText "NaN"
       | _ => Nothing
       end.

Definition is_health_reply (ev : Event) : bool :=
  match ev with
  | HealthReply _ => true
  | _ => false
  end.

(** Every pending timer is due later than now and within the delay. *)
Definition timely (w : World) : Prop :=
  forall tm, tm ∈ timers w -> now w < due tm <= now w + 3000.

(** A status that shows an outcome has a timer to revert it. *)
Definition outcome_has_timer (w : World) : Prop :=
  forall k, status k (panel w) = success \/ status k (panel w) = error ->
            exists tm, tm ∈ timers w /\ callback tm = revert k.

End PanelView.

(** ** The transcript and the context, together *)

(** The pair of turns that an answer entry stands for in the context: one
    for an answer recorded from a response, none for an error entry. *)
Definition summary (e : Entry) : list Turn :=
  match e with
  | Answer (Str q) sql _ _ _ =>
      [ {| role := user; content := q |};
        {| role := assistant;
           content := "I searched for: " +:+ q +:+ ". The SQL query was: "
                      +:+ JS.String sql |} ]
  | _ => []
  end.

(** An answer entry to the question [q]: recorded from a response, with the
    question, or from an error, without. *)
Definition answers (q : string) (a : Entry) : Prop :=
  match a with
  | Answer q' _ _ _ _ => q' = Str q \/ q' = Undefined
  | Question _ => False
  end.

Definition dialogue (qas : list (string * Entry)) : list Entry :=
  concat (map (fun qa => [Question qa.1; qa.2]) qas).

Definition is_reset (ev : Event) : bool :=
  match ev with
  | NewConversation => true
  | _ => false
  end.

(** The busy guard, as an invariant of the page. *)
Definition serialised (s : Session) : Prop :=
  (loading (ui s) = false /\ in_flight s = []) \/
  (loading (ui s) = true /\ exists q, in_flight s = [q]).

(** The transcript of a session without reset: questions, each followed by
    its answer, and the questions still in flight. *)
Definition well_paired (s : Session) : Prop :=
  exists qas,
    Forall (fun qa => answers qa.1 qa.2) qas /\
    history (ui s) = dialogue qas ++ map Question (in_flight s).

(** Two turns of a conversation, the second still in flight. *)
Definition two_turns : list Event :=
  [ Change "cheapestMilk"; Submit; Settle 0 (Ok example_response);
    Change "pastaPrices"; Submit ].

(** ** Reading a fixed-point string back *)

(** The integer that the digits of [s] spell, the point left out, and
    whether [s] has a minus sign. *)
Definition read_digits (l : list ascii) : Z :=
  fold_left (fun acc c => 10 * acc + (Z.of_nat (nat_of_ascii c) - 48)) l 0.

Definition read_fixed (s : string) : bool * Z :=
  let l := list_ascii_of_string s in
  (match l with
   | c :: _ => Ascii.eqb c "-"
   | [] => false
   end,
   read_digits (filter (fun c => is_digit c) l)).

(** * Properties *)

(** ** The query cycle *)

Lemma run_app (effs1 effs2 : list Effect) (st : State) :
  run (effs1 ++ effs2) st = run effs2 (run effs1 st).
Proof. apply fold_left_app. Qed.

Lemma state_eta (st : State) :
  {| question := question st; loading := loading st; history := history st;
     conversationHistory := conversationHistory st |} = st.
Proof. by destruct st. Qed.



Section QueryCycle.
Context `{Host}.

Lemma handleSubmit_try_thrown userQuestion response :
  thrown response = true ->
  exists error, handleSubmit_try userQuestion response = Throw error.
Proof.
  destruct response as [[]|e]; simpl; try discriminate; eauto.
Qed.

Lemma handleSubmit_try_ok userQuestion response :
  thrown response = false ->
  exists data,
    response = Ok data /\
    handleSubmit_try userQuestion response =
      Ok [ appendHistory (Answer (Str userQuestion) (JS.field data "sql")
                            (JS.field data "data") (JS.field data "columns")
                            (JS.field data "error"));
           appendConversation
             {| role := user; content := userQuestion |}
             {| role := assistant;
                content := "I searched for: " +:+ userQuestion
                           +:+ ". The SQL query was: "
                           +:+ JS.String (JS.field data "sql") |} ].
Proof.
  destruct response as [data|e]; [|discriminate].
  intros Hd. exists data. split; [done|].
  destruct data; simpl in *; try discriminate; reflexivity.
Qed.

End QueryCycle.


Section QueryCycleClaims.
Context `{Host}.


End QueryCycleClaims.


(** A 2xx response that carries an [error] field is no failure either: the
    answer renders as an error box and the context is extended. *)
Example error_field_response_extends_context :
  let response := Ok (Obj [ ("sql", Str ""); ("data", Arr []); ("columns", Arr []);
                            ("error", Str "Table not found") ]) in
  let st := run (handleSubmit_resume (H := ExampleHost.host) "tlvStores" response)
              initial in
  spec_failure response = false /\
  history st = [ Answer (Str "tlvStores") (Str "") (Arr []) (Arr [])
                   (Str "Table not found") ] /\
  renderEntry (H := ExampleHost.host)
    (Answer (Str "tlvStores") (Str "") (Arr []) (Arr []) (Str "Table not found"))
  = Ok [ErrorBox (Str "Table not found")] /\
  length (conversationHistory st) = 2%nat.
Proof. repeat split. Qed.

Lemma trim_nonempty_truthy (s : string) :
  trim s <> ""%string -> JS.truthy (Str (trim s)) = true.
Proof.
  intros Hne. simpl. apply negb_true_iff. by apply String.eqb_neq.
Qed.





Section QueryCycleOrder.
Context `{Host}.

(** C4.  For a non-empty utterance, [handleSubmit] appends the question
    to the transcript and then issues the request; when the request
    settles, with a response or an error, it appends one answer entry and
    sets [loading] to false.  A cycle that nothing interleaves with adds
    exactly the question and then the answer. *)
Theorem cycle_appends_question_then_answer (st : State) :
  trim (question st) <> ""%string ->
  let q := question st in
  let request := {| req_question := q;
                    req_conversation_history := conversationHistory st |} in
  handleSubmit_begin st
    = [preventDefault; setQuestion ""; setLoading true;
       appendHistory (Question q); postQuery request] /\
  history (run (handleSubmit_begin st) st) = history st ++ [Question q] /\
  loading (run (handleSubmit_begin st) st) = true /\
  forall response, exists a,
    is_answer a = true /\
    (forall st1,
       history (run (handleSubmit_resume q response) st1) = history st1 ++ [a] /\
       loading (run (handleSubmit_resume q response) st1) = false) /\
    history (run (handleSubmit_begin st ++ handleSubmit_resume q response) st)
      = history st ++ [Question q; a] /\
    loading (run (handleSubmit_begin st ++ handleSubmit_resume q response) st)
      = false.
Proof.
  intros Hne q request.
  assert (handleSubmit_begin st
          = [preventDefault; setQuestion ""; setLoading true;
             appendHistory (Question q); postQuery request]) as Hbegin.
  { unfold handleSubmit_begin. by rewrite (trim_nonempty_truthy _ Hne). }
  rewrite Hbegin. split; [done|]. split; [done|]. split; [done|].
  intros response.
  assert (exists a effs,
            is_answer a = true /\
            handleSubmit_resume q response
            = appendHistory a :: effs ++ [setLoading false] /\
            forall st1, history (run effs st1) = history st1) as (a & effs & Ha & Hres & Heffs).
  { unfold handleSubmit_resume.
    destruct (thrown response) eqn:Hthrown.
    - destruct (handleSubmit_try_thrown q response Hthrown) as [error ->].
      eexists _, []. split; [|split]; [|reflexivity|done]. reflexivity.
    - destruct (handleSubmit_try_ok q response Hthrown) as (data & _ & ->).
      eexists _, [_]. split; [|split]; [|reflexivity|done]. reflexivity. }
  exists a. split; [done|].
  assert (forall st1,
    history (run (handleSubmit_resume q response) st1) = history st1 ++ [a] /\
    loading (run (handleSubmit_resume q response) st1) = false) as Hany.
  { intros st1. rewrite Hres.
    change (appendHistory a :: effs ++ [setLoading false])
      with ([appendHistory a] ++ effs ++ [setLoading false]).
    rewrite !run_app. simpl. split; [|done]. by rewrite Heffs. }
  split; [done|].
  rewrite run_app. destruct (Hany (run [preventDefault; setQuestion ""; setLoading true;
             appendHistory (Question q); postQuery request] st)) as [-> ->].
  split; [|done]. simpl. by rewrite <- app_assoc.
Qed.

End QueryCycleOrder.

Lemma cycle_appends_question_then_answer_witness :
  let st := {| question := "cheapestMilk"; loading := false; history := [];
               conversationHistory := [] |} in
  trim (question st) <> ""%string /\
  exists a,
    history (run (handleSubmit_begin st
                  ++ handleSubmit_resume (H := ExampleHost.host) "cheapestMilk"
                       (Ok example_response)) st)
    = [Question "cheapestMilk"; a].
Proof.
  intros st.
  assert (trim (question st) <> ""%string) as Hne by (vm_compute; discriminate).
  split; [exact Hne|].
  destruct (cycle_appends_question_then_answer (H := ExampleHost.host) st Hne)
    as (_ & _ & _ & Hcycle).
  destruct (Hcycle (Ok example_response)) as (a & _ & _ & Hhist & _).
  exists a. exact Hhist.
Defined.

(** ** The shape of the context *)


Lemma exchanges_snoc qas q a :
  exchanges (qas ++ [(q, a)])
  = exchanges qas ++ [ {| role := user; content := q |};
                       {| role := assistant; content := a |} ].
Proof.
  unfold exchanges. rewrite map_app, concat_app. simpl. reflexivity.
Qed.

Lemma exchanges_paired qas : paired (exchanges qas) = true.
Proof. induction qas as [|[q a] qas IH]; [done|]. simpl. exact IH. Qed.

Lemma exchanges_length qas : length (exchanges qas) = (2 * length qas)%nat.
Proof.
  induction qas as [|[q a] qas IH]; [done|].
  unfold exchanges in *. cbn [map concat exchange app length]. lia.
Qed.

Lemma exchanges_role qas (i : nat) (tn : Turn) :
  exchanges qas !! i = Some tn ->
  role tn = if Nat.even i then user else assistant.
Proof.
  revert i. induction qas as [|[q a] qas IH]; intros i Hi; [done|].
  destruct i as [|[|i]]; simpl in Hi.
  - by inversion Hi.
  - by inversion Hi.
  - change (Nat.even (S (S i))) with (Nat.even i). by apply IH.
Qed.

Section ContextShape.
Context `{Host}.

Lemma handleSubmit_begin_context st :
  conversationHistory (run (handleSubmit_begin st) st) = conversationHistory st.
Proof.
  unfold handleSubmit_begin.
  by destruct (negb (JS.truthy (Str (trim (question st))))).
Qed.

Lemma handleSubmit_resume_context q response st :
  let c := conversationHistory st in
  let c' := conversationHistory (run (handleSubmit_resume q response) st) in
  (exists a, c' = c ++ [ {| role := user; content := q |};
                         {| role := assistant; content := a |} ]) \/ c' = c.
Proof.
  unfold handleSubmit_resume. destruct (thrown response) eqn:Hthrown.
  - destruct (handleSubmit_try_thrown q response Hthrown) as [error ->]. by right.
  - destruct (handleSubmit_try_ok q response Hthrown) as (data & _ & ->).
    left. simpl. eauto.
Qed.

(** Every callback appends one pair, leaves the context, or empties it. *)
Lemma step_context (s : Session) (ev : Event) :
  let c := conversationHistory (ui s) in
  let c' := conversationHistory (ui (step s ev)) in
  (exists q a, c' = c ++ [ {| role := user; content := q |};
                           {| role := assistant; content := a |} ])
  \/ c' = c \/ c' = [].
Proof.
  destruct ev as [value|key| |i response|]; simpl.
  - by right; left.
  - by right; left.
  - right; left. apply handleSubmit_begin_context.
  - destruct (in_flight s !! i) as [q|]; [|by right; left]. simpl.
    destruct (handleSubmit_resume_context q response (ui s)) as [[a ->] | ->].
    + left. eauto.
    + by right; left.
  - by right; right.
Qed.

Lemma reachable_exchanges (evs : list Event) :
  exists qas, conversationHistory (ui (steps evs session_start)) = exchanges qas.
Proof.
  induction evs as [|ev evs IH] using rev_ind.
  - by exists [].
  - unfold steps in *. rewrite fold_left_app. simpl.
    destruct IH as [qas IH].
    destruct (step_context (fold_left step evs session_start) ev)
      as [(q & a & ->) | [-> | ->]].
    + exists (qas ++ [(q, a)]). by rewrite exchanges_snoc, IH.
    + by exists qas.
    + by exists [].
Qed.

(** C10.  In every state the session reaches, whatever the events and
    their order, the context is a sequence of (user, assistant) pairs: its
    length is even and the roles alternate from a user turn; and every
    callback appends exactly one such pair, leaves the context unchanged,
    or resets it to empty. *)
Theorem context_is_user_assistant_pairs (evs : list Event) :
  let s := steps evs session_start in
  let c := conversationHistory (ui s) in
  paired c = true /\
  Nat.Even (length c) /\
  (forall i tn, c !! i = Some tn -> role tn = if Nat.even i then user else assistant) /\
  forall ev,
    let c' := conversationHistory (ui (step s ev)) in
    (exists q a, c' = c ++ [ {| role := user; content := q |};
                             {| role := assistant; content := a |} ])
    \/ c' = c \/ c' = [].
Proof.
  intros s c.
  split; [|split; [|split]]; [..|intros ev; apply step_context];
    subst s c; destruct (reachable_exchanges evs) as [qas ->].
  - apply exchanges_paired.
  - exists (length qas). apply exchanges_length.
  - apply exchanges_role.
Qed.

End ContextShape.

(** ** The cell formatter *)

Lemma list_ascii_of_string_app (s1 s2 : string) :
  list_ascii_of_string (s1 +:+ s2) = list_ascii_of_string s1 ++ list_ascii_of_string s2.
Proof. induction s1 as [|c s1 IH]; [done|]. simpl. by rewrite IH. Qed.

Lemma string_of_uint_digits (u : Decimal.uint) :
  forallb is_digit (list_ascii_of_string (NilEmpty.string_of_uint u)) = true.
Proof. induction u; simpl; auto. Qed.

Lemma string_of_uint_nonempty (u : Decimal.uint) :
  u <> Decimal.Nil -> list_ascii_of_string (NilEmpty.string_of_uint u) <> [].
Proof. destruct u; simpl; congruence. Qed.

Lemma decimal_digits (n : Z) : forallb is_digit (list_ascii_of_string (decimal n)) = true.
Proof. apply string_of_uint_digits. Qed.

Lemma decimal_nonempty (n : Z) : list_ascii_of_string (decimal n) <> [].
Proof.
  unfold decimal. apply string_of_uint_nonempty.
  destruct (Z.to_N n) as [|p]; simpl; [discriminate|].
  apply DecimalPos.Unsigned.to_uint_nonnil.
Qed.

Lemma zeros_digits (n : nat) : forallb is_digit (repeat "0"%char n) = true.
Proof. induction n; simpl; auto. Qed.

Lemma string_length_list (s : string) :
  String.length s = length (list_ascii_of_string s).
Proof. induction s; simpl; auto. Qed.

Lemma forallb_take {A} (p : A -> bool) (n : nat) (l : list A) :
  forallb p l = true -> forallb p (take n l) = true.
Proof.
  revert n. induction l as [|x l IH]; intros [|n] Hl; simpl in *; auto.
  apply andb_prop in Hl as [-> Hl]. simpl. auto.
Qed.

Lemma forallb_drop {A} (p : A -> bool) (n : nat) (l : list A) :
  forallb p l = true -> forallb p (drop n l) = true.
Proof.
  revert n. induction l as [|x l IH]; intros [|n] Hl; simpl in *; auto.
  apply andb_prop in Hl as [_ Hl]. auto.
Qed.

Lemma span_digits_point (a b : list ascii) :
  forallb is_digit a = true ->
  span_digits (a ++ "."%char :: b) = (a, "."%char :: b).
Proof.
  induction a as [|c a IH]; intros Ha; simpl in *; [done|].
  apply andb_prop in Ha as [-> Ha]. by rewrite (IH Ha).
Qed.

Lemma is_fixed_point_intro (f : nat) (neg : bool) (a b : list ascii) :
  a <> [] ->
  forallb is_digit a = true ->
  forallb is_digit b = true ->
  length b = f ->
  is_fixed_point f ((if neg then "-" else "") +:+ string_of_list_ascii a
                    +:+ "." +:+ string_of_list_ascii b) = true.
Proof.
  intros Hne Ha Hb Hlen. unfold is_fixed_point.
  rewrite !list_ascii_of_string_app, !list_ascii_of_string_of_list_ascii.
  assert (strip_minus (list_ascii_of_string (if neg then "-" else "")
                       ++ a ++ list_ascii_of_string "." ++ b)
          = a ++ "."%char :: b) as ->.
  { destruct neg; simpl; [done|].
    destruct a as [|c a]; [done|]. simpl in *.
    apply andb_prop in Ha as [Hc _].
    destruct (Ascii.eqb_spec c "-") as [->|_]; [discriminate|done]. }
  rewrite (span_digits_point a b Ha).
  destruct a as [|c a]; [done|].
  rewrite Hb. simpl. by apply Nat.eqb_eq.
Qed.

Lemma fixed_digits_shape (f : nat) (n : Z) :
  f <> O ->
  exists a b,
    Num.fixed_digits f n = string_of_list_ascii a +:+ "." +:+ string_of_list_ascii b /\
    a <> [] /\ forallb is_digit a = true /\ forallb is_digit b = true /\ length b = f.
Proof.
  intros Hf. unfold Num.fixed_digits.
  destruct (Nat.eqb_spec f 0) as [|_]; [done|].
  set (m := if (String.length (decimal n) <=? f)%nat
            then zeros (f + 1 - String.length (decimal n)) +:+ decimal n
            else decimal n).
  assert (forallb is_digit (list_ascii_of_string m) = true) as Hdigits.
  { subst m. destruct (_ <=? _)%nat; [|apply decimal_digits].
    unfold zeros.
    rewrite list_ascii_of_string_app, list_ascii_of_string_of_list_ascii, forallb_app.
    by rewrite zeros_digits, decimal_digits. }
  assert (f < String.length m)%nat as Hlen.
  { subst m. destruct (Nat.leb_spec (String.length (decimal n)) f) as [Hle|Hlt]; [|done].
    unfold zeros.
    rewrite string_length_list, list_ascii_of_string_app,
      list_ascii_of_string_of_list_ascii, length_app, repeat_length,
      <- string_length_list.
    lia. }
  unfold split_at.
  exists (take (String.length m - f) (list_ascii_of_string m)),
         (drop (String.length m - f) (list_ascii_of_string m)).
  split; [done|].
  rewrite string_length_list in *.
  split; [|split; [|split]].
  - intros Hnil. apply (f_equal length) in Hnil.
    rewrite length_take in Hnil. simpl in Hnil. lia.
  - by apply forallb_take.
  - by apply forallb_drop.
  - rewrite length_drop. lia.
Qed.

Lemma toFixed_fixed_point (f : nat) (x : spec_float) :
  f <> O -> Num.below_1e21 x = true -> is_fixed_point f (Num.toFixed f x) = true.
Proof.
  intros Hf Hx. destruct x as [s|s| |s m e]; cbn [Num.below_1e21] in Hx;
    try discriminate.
  - cbn [Num.toFixed]. destruct (fixed_digits_shape f 0 Hf) as (a & b & -> & Hne & Ha & Hb & Hlen).
    by apply (is_fixed_point_intro f false).
  - unfold Num.toFixed. unfold Num.Qltb in Hx. apply negb_true_iff in Hx. rewrite Hx.
    destruct (fixed_digits_shape f
                (Qfloor (Num.mag m e * Qpower 10 (Z.of_nat f) + (1 # 2))%Q) Hf)
      as (a & b & -> & Hne & Ha & Hb & Hlen).
    by apply (is_fixed_point_intro f s).
Qed.


Section CellFormatter.
Context `{Host}.

Lemma formatCell_price (x : spec_float) (col : Value) :
  JS.includes price_columns col = true ->
  formatCell (Num x) col = Ok (Num.toFixed 2 x).
Proof. intros Hcol. unfold formatCell. by rewrite Hcol. Qed.

(** C5, as amended.  A null cell (the one form of absence that a row of a
    JSON response can carry) formats to ["N/A"] in every column.  In a
    price column ([ItemPrice], [price]) every number whose magnitude is
    below 10^21 formats to fixed-point notation with exactly two
    fractional digits; 6.9 in [ItemPrice] formats to ["6.90"].  From 10^21
    on, [toFixed] prints the number as [String] does, in exponent
    notation. *)
Theorem formatCell_null_and_price :
  (forall col, formatCell Null col = Ok "N/A") /\
  (forall x col,
      JS.includes price_columns col = true ->
      Num.below_1e21 x = true ->
      formatCell (Num x) col = Ok (Num.toFixed 2 x) /\
      is_fixed_point 2 (Num.toFixed 2 x) = true) /\
  (forall x col,
      JS.includes price_columns col = true ->
      Num.below_1e21 x = false ->
      formatCell (Num x) col = Ok (Num.toString x)) /\
  Num.parses_to (69 # 10) num_6_9 = true /\
  formatCell (Num num_6_9) (Str "ItemPrice") = Ok "6.90".
Proof.
  split; [done|]. split; [|split; [|split]].
  - intros x col Hcol Hx. split; [by apply formatCell_price|].
    by apply toFixed_fixed_point.
  - intros x col Hcol Hx. rewrite (formatCell_price x col Hcol). f_equal.
    destruct x as [s|s| |s m e]; cbn [Num.below_1e21] in Hx; try discriminate; try done.
    unfold Num.toFixed, Num.toString. unfold Num.Qltb in Hx.
    apply negb_false_iff in Hx. by rewrite Hx.
  - by vm_compute.
  - by vm_compute.
Qed.


(** C8, as amended.  An answer without an error whose result set is
    present and has zero rows renders the "no results" indicator and
    nothing else.  An answer in which both the result set and the error
    are absent renders nothing: no table, no error box and no
    indicator. *)
Theorem empty_result_rendering (q sql data columns error : Value) :
  JS.truthy error = false ->
  (data = Arr [] -> renderEntry (Answer q sql data columns error) = Ok [NoResults]) /\
  (JS.nullish data = true -> renderEntry (Answer q sql data columns error) = Ok []).
Proof.
  intros Herror. split.
  - intros ->. simpl. by rewrite Herror.
  - intros Hdata. simpl. rewrite Herror. by destruct data.
Qed.

End CellFormatter.

Lemma formatCell_null_and_price_witness :
  JS.includes price_columns (Str "price") = true /\
  Num.below_1e21 num_7_25 = true /\
  Num.below_1e21 num_1e21 = false /\
  formatCell (H := ExampleHost.host) (Num num_7_25) (Str "price") = Ok "7.25" /\
  is_fixed_point 2 "7.25" = true /\
  formatCell (H := ExampleHost.host) (Num num_1e21) (Str "price") = Ok "1e+21".
Proof.
  destruct (formatCell_null_and_price (H := ExampleHost.host)) as (_ & Hlow & Hhigh & _).
  assert (JS.includes price_columns (Str "price") = true) as Hcol by reflexivity.
  assert (Num.below_1e21 num_7_25 = true) as H725 by (vm_compute; reflexivity).
  assert (Num.below_1e21 num_1e21 = false) as H1e21 by (vm_compute; reflexivity).
  split; [exact Hcol|]. split; [exact H725|]. split; [exact H1e21|].
  destruct (Hlow num_7_25 (Str "price") Hcol H725) as [Hfmt Hfix].
  split; [exact Hfmt|]. split; [exact Hfix|].
  exact (Hhigh num_1e21 (Str "price") Hcol H1e21).
Defined.

(** C5 as stated fails at the JSON number 1e21 in the [ItemPrice] column:
    the formatted cell is in exponent notation, without fractional digits. *)
Lemma price_1e21_is_not_fixed_point :
  Num.parses_to (1000000000000000000000 # 1) num_1e21 = true /\
  JS.includes price_columns (Str "ItemPrice") = true /\
  formatCell (H := ExampleHost.host) (Num num_1e21) (Str "ItemPrice") = Ok "1e+21" /\
  is_fixed_point 2 "1e+21" = false.
Proof. by vm_compute. Qed.


Lemma empty_result_rendering_witness :
  JS.truthy Undefined = false /\
  renderEntry (H := ExampleHost.host)
    (Answer (Str "q") (Str "SELECT 1") (Arr []) (Arr []) Undefined) = Ok [NoResults] /\
  JS.nullish Undefined = true /\
  renderEntry (H := ExampleHost.host)
    (Answer (Str "q") (Str "SELECT 1") Undefined Undefined Undefined) = Ok [].
Proof.
  assert (JS.truthy Undefined = false) as Herror by reflexivity.
  split; [exact Herror|]. split; [|split; [reflexivity|]].
  - exact (proj1 (empty_result_rendering (H := ExampleHost.host) (Str "q")
                    (Str "SELECT 1") (Arr []) (Arr []) Undefined Herror) eq_refl).
  - exact (proj2 (empty_result_rendering (H := ExampleHost.host) (Str "q")
                    (Str "SELECT 1") Undefined Undefined Undefined Herror) eq_refl).
Defined.

(** The first example of the specification (section 8): the transcript
    after the cycle and what it renders to. *)
Example cheapestMilk_transcript :
  let s := steps (H := ExampleHost.host)
             [Change "cheapestMilk"; Submit; Settle 0 (Ok example_response)]
             session_start in
  allowed (H := ExampleHost.host)
    [Change "cheapestMilk"; Submit; Settle 0 (Ok example_response)] session_start = true /\
  loading (ui s) = false /\
  mapM_index (fun _ item => renderEntry (H := ExampleHost.host) item) 0 (history (ui s))
  = Ok [ [UserMessage "cheapestMilk"];
         [ResultsTable [Str "StoreName"; Str "ItemPrice"]
            [ ["Store A"; "6.90"]; ["Store B"; "7.25"] ]] ].
Proof. by vm_compute. Qed.

(** C8 as stated fails when both the result set and the error are absent:
    a 2xx response with neither [data] nor [error] yields an answer entry
    that renders nothing, not the "no results" indicator. *)
Lemma absent_result_renders_nothing :
  let s := steps (H := ExampleHost.host)
             [Change "tlvStores"; Submit; Settle 0 (Ok (Obj [("sql", Str "SELECT 1")]))]
             session_start in
  history (ui s)
    = [ Question "tlvStores";
        Answer (Str "tlvStores") (Str "SELECT 1") Undefined Undefined Undefined ] /\
  renderEntry (H := ExampleHost.host)
    (Answer (Str "tlvStores") (Str "SELECT 1") Undefined Undefined Undefined) = Ok [] /\
  renderEntry (H := ExampleHost.host)
    (Answer (Str "tlvStores") (Str "SELECT 1") Undefined Undefined Undefined)
  <> Ok [NoResults].
Proof. repeat split. discriminate. Qed.

(** ** Error messages *)


Section ErrorMessages.
Context `{Host}.
Import ControlPanel.

(** C9, as amended.  On a query failure the recorded error message is the
    server's [detail] if present, else the error's own message, else
    ['Failed to process query'].  On a job-trigger failure it is the
    server's [detail] if present, else the fixed text of that job
    (['Failed to start scraper'], ['Failed to start importer']): the
    error's own message is not consulted. *)
Theorem error_message_preference (err : Exn) :
  (forall q response,
      handleSubmit_try q response = Throw err ->
      handleSubmit_resume q response
      = [ appendHistory
            (Answer Undefined Undefined Undefined Undefined
               (prefer [detail err; message_of err] (Str "Failed to process query")));
          setLoading false ]) /\
  (forall response st,
      (data ← response; JS.get data "message") = Throw err ->
      let st' := ControlPanel.run (triggerScrape_resume response) st in
      message st' = prefer [detail err] (Str "Failed to start scraper") /\
      scrapeStatus st' = error) /\
  (forall response st,
      (data ← response; JS.get data "message") = Throw err ->
      let st' := ControlPanel.run (triggerImport_resume response) st in
      message st' = prefer [detail err] (Str "Failed to start importer") /\
      importStatus st' = error).
Proof.
  split; [|split].
  - intros q response Htry. unfold handleSubmit_resume. rewrite Htry.
    unfold handleSubmit_catch, JS.or. cbn [prefer app].
    destruct (JS.truthy (detail err)) eqn:Hd; [by rewrite Hd|].
    by destruct (JS.truthy (message_of err)) eqn:Hm; rewrite ?Hm.
  - intros response st Htry. unfold triggerScrape_resume. rewrite Htry.
    unfold JS.or. simpl. by destruct (JS.truthy (detail err)).
  - intros response st Htry. unfold triggerImport_resume. rewrite Htry.
    unfold JS.or. simpl. by destruct (JS.truthy (detail err)).
Qed.

End ErrorMessages.

Lemma error_message_preference_witness :
  let err := AxiosError "Request failed with status code 409"
               (Some (Obj [("detail", Str "scraper busy")])) in
  handleSubmit_try (H := ExampleHost.host) "pastaPrices" (Throw err) = Throw err /\
  handleSubmit_resume (H := ExampleHost.host) "pastaPrices" (Throw err)
  = [ appendHistory
        (Answer Undefined Undefined Undefined Undefined (Str "scraper busy"));
      setLoading false ] /\
  ControlPanel.message
    (ControlPanel.run (ControlPanel.triggerScrape_resume (H := ExampleHost.host) (Throw err))
       ControlPanel.initial) = Str "scraper busy" /\
  ControlPanel.importStatus
    (ControlPanel.run (ControlPanel.triggerImport_resume (H := ExampleHost.host) (Throw err))
       ControlPanel.initial) = ControlPanel.error.
Proof.
  intros err.
  destruct (error_message_preference (H := ExampleHost.host) err)
    as (Hquery & Hscrape & Himport).
  split; [reflexivity|]. split; [|split].
  - exact (Hquery "pastaPrices" (Throw err) eq_refl).
  - exact (proj1 (Hscrape (Throw err) ControlPanel.initial eq_refl)).
  - exact (proj2 (Himport (Throw err) ControlPanel.initial eq_refl)).
Defined.

(** C9 as stated fails for the job triggers: when the request fails without
    a server response, the message shown is the fixed text, not the
    transport's description of the error. *)
Lemma trigger_failure_skips_transport_message :
  let err := AxiosError "Network Error" None in
  prefer [detail err; message_of err] (Str "Failed to start scraper")
    = Str "Network Error" /\
  ControlPanel.message
    (ControlPanel.run (ControlPanel.triggerScrape_resume (H := ExampleHost.host) (Throw err))
       ControlPanel.initial) = Str "Failed to start scraper" /\
  ControlPanel.message
    (ControlPanel.run (ControlPanel.triggerImport_resume (H := ExampleHost.host) (Throw err))
       ControlPanel.initial) = Str "Failed to start importer".
Proof. repeat split. Qed.

(** ** The control panel *)

Section PanelFacts.
Import ControlPanel.

Lemma other_other (k : Job) : other (other k) = k.
Proof. by destruct k. Qed.

Lemma other_neq (k : Job) : other k <> k.
Proof. by destruct k. Qed.

Lemma neq_other (j k : Job) : j <> k -> j = other k.
Proof. by destruct j, k. Qed.

Lemma revert_sets_idle (k : Job) (st : State) :
  status k (apply st (revert k)) = idle.
Proof. by destruct k. Qed.

Lemma revert_frame (k : Job) (st : State) :
  status (other k) (apply st (revert k)) = status (other k) st.
Proof. by destruct k. Qed.

(** A batch of revert callbacks: the status of [k] becomes [idle] if one
    of them is the callback of [k], and is unchanged otherwise. *)
Lemma run_reverts (jobs : list Job) (k : Job) (st : State) :
  status k (run (map revert jobs) st)
  = if bool_decide (k ∈ jobs) then idle else status k st.
Proof.
  revert st. induction jobs as [|j jobs IH]; intros st; [done|].
  change (run (map revert (j :: jobs)) st)
    with (run (map revert jobs) (apply st (revert j))).
  rewrite IH. case_bool_decide as Hin.
  - rewrite bool_decide_eq_true_2; [done|by right].
  - destruct (decide (k = j)) as [->|Hne].
    + rewrite bool_decide_eq_true_2 by left. apply revert_sets_idle.
    + rewrite bool_decide_eq_false_2.
      * by destruct j, k.
      * rewrite elem_of_cons. by intros [|].
Qed.

Context `{Host}.

Lemma trigger_begin_frame (k : Job) (st : State) :
  status (other k) (run (trigger_begin k) st) = status (other k) st.
Proof. by destruct k. Qed.

Lemma trigger_resume_effects (k : Job) (response : Result Value) :
  exists msg outcome,
    trigger_resume k response
    = [ setMessage msg;
        match k with
        | scrape => setScrapeStatus outcome
        | import => setImportStatus outcome
        end;
        setTimeout (revert k) 3000 ].
Proof.
  destruct k; simpl; unfold triggerScrape_resume, triggerImport_resume;
    destruct (data ← response; JS.get data "message"); eauto.
Qed.

Lemma trigger_resume_frame (k : Job) (response : Result Value) (st : State) :
  status (other k) (run (trigger_resume k response) st) = status (other k) st.
Proof.
  destruct (trigger_resume_effects k response) as (msg & outcome & ->).
  by destruct k.
Qed.

Lemma trigger_resume_timeouts (k : Job) (response : Result Value) :
  timeouts (trigger_resume k response) = [(revert k, 3000)].
Proof.
  destruct (trigger_resume_effects k response) as (msg & outcome & ->).
  by destruct k.
Qed.

Lemma checkHealth_frame (response : Result Value) (j : Job) (st : State) :
  status j (run checkHealth_begin st) = status j st /\
  status j (run (checkHealth_resume response) st) = status j st.
Proof. split; [done|]. by destruct response, j. Qed.

Lemma schedule_resume (w : World) (id : nat) (k : Job) (response : Result Value) :
  schedule w id (trigger_resume k response)
  = [ {| due := now w + 3000; callback := revert k; owner := id |} ].
Proof. unfold schedule. by rewrite trigger_resume_timeouts. Qed.



Lemma reverts_only_step (w : World) (ev : Event) :
  reverts_only w -> reverts_only (step w ev).
Proof.
  intros Hw. destruct ev as [k|id response|response|ms]; simpl; try done.
  - destruct (calls w !! id) as [k|]; [|done].
    case_bool_decide; [|done].
    intros tm. simpl. rewrite schedule_resume, elem_of_app, list_elem_of_singleton.
    intros [Htm | ->]; [by apply Hw|]. by exists k.
  - intros tm. simpl. rewrite list_elem_of_filter. intros [_ Htm]. by apply Hw.
Qed.

Lemma reverts_only_steps (evs : list Event) (w : World) :
  reverts_only w -> reverts_only (steps evs w).
Proof.
  revert w. induction evs as [|ev evs IH]; intros w Hw; [done|].
  simpl. apply IH. by apply reverts_only_step.
Qed.

Lemma reverts_only_mounted : reverts_only mounted.
Proof. intros tm Htm. simpl in Htm. by apply elem_of_nil in Htm. Qed.

Lemma callbacks_are_reverts (l : list Timer) :
  (forall tm, tm ∈ l -> exists k, callback tm = revert k) ->
  map callback l = map revert (map (fun tm => job_of (callback tm)) l).
Proof.
  induction l as [|tm l IH]; intros Hl; [done|].
  simpl. rewrite IH.
  - destruct (Hl tm) as [k Hk]; [left|]. rewrite Hk. by destruct k.
  - intros tm' Htm'. apply Hl. by right.
Qed.

Lemma job_of_revert (k : Job) : job_of (revert k) = k.
Proof. by destruct k. Qed.

Lemma elapse_jobs (w : World) (ms : Z) (k : Job) :
  reverts_only w ->
  k ∈ map (fun tm => job_of (callback tm))
          (filter (fun tm => is_due (now w + ms) tm) (timers w))
  <-> exists tm, tm ∈ timers w /\ callback tm = revert k /\ due tm <= now w + ms.
Proof.
  intros Hw. rewrite list_elem_of_fmap. split.
  - intros (tm & -> & Htm). apply list_elem_of_filter in Htm as [Hdue Htm].
    exists tm. split; [done|]. split.
    + destruct (Hw tm Htm) as [k ->]. by rewrite job_of_revert.
    + unfold is_due in Hdue. apply Is_true_true in Hdue. lia.
  - intros (tm & Htm & Hcb & Hdue). exists tm. split.
    + by rewrite Hcb, job_of_revert.
    + apply list_elem_of_filter. split; [|done].
      unfold is_due. apply Is_true_true. lia.
Qed.

(** What the passing of time does to the status of job [k]: it becomes
    [idle] if a timer of [k] is due, and is unchanged otherwise. *)
Lemma elapse_status (w : World) (ms : Z) (k : Job) :
  reverts_only w ->
  ((exists tm, tm ∈ timers w /\ callback tm = revert k /\ due tm <= now w + ms) ->
   status k (panel (step w (Elapse ms))) = idle) /\
  ((forall tm, tm ∈ timers w -> callback tm = revert k -> now w + ms < due tm) ->
   status k (panel (step w (Elapse ms))) = status k (panel w)).
Proof.
  intros Hw. simpl.
  rewrite callbacks_are_reverts.
  2:{ intros tm. rewrite list_elem_of_filter. intros [_ Htm]. by apply Hw. }
  rewrite run_reverts. split.
  - intros Hdue. rewrite bool_decide_eq_true_2; [done|]. by apply elapse_jobs.
  - intros Hnone. rewrite bool_decide_eq_false_2; [done|].
    rewrite elapse_jobs by done. intros (tm & Htm & Hcb & Hdue).
    specialize (Hnone tm Htm Hcb). lia.
Qed.

Lemma quiet_step (j : Job) (w : World) (ev : Event) :
  quiet j w -> ev <> Click j ->
  quiet j (step w ev) /\ status j (panel (step w ev)) = status j (panel w).
Proof.
  intros [Hpending Htimers] Hev.
  destruct ev as [k|id response|response|ms].
  - assert (k = other j) as -> by (apply neq_other; congruence).
    split; [split|]; simpl.
    + intros id. rewrite elem_of_app, list_elem_of_singleton.
      intros [Hid | ->].
      * intros Hcall. apply lookup_app_Some in Hcall as [Hcall|[_ Hcall]].
        -- by apply (Hpending id).
        -- apply list_lookup_singleton_Some in Hcall as [_ Hcall].
           by destruct j.
      * rewrite lookup_app_r, Nat.sub_diag by done. simpl.
        intros [=]. by destruct j.
    + done.
    + rewrite <- (other_other j) at 1 3. apply trigger_begin_frame.
  - simpl. destruct (calls w !! id) as [k|] eqn:Hcall; [|done].
    case_bool_decide as Hid; [|done].
    assert (k = other j) as ->.
    { apply neq_other. intros ->. by apply (Hpending id). }
    split; [split|]; simpl.
    + intros id'. rewrite list_elem_of_filter. intros [_ Hid']. by apply Hpending.
    + intros tm. rewrite schedule_resume, elem_of_app, list_elem_of_singleton.
      intros [Htm | ->]; [by apply Htimers|done].
    + rewrite <- (other_other j) at 1 3. apply trigger_resume_frame.
  - split; [done|]. simpl. apply checkHealth_frame.
  - split; [split|]; simpl.
    + done.
    + intros tm. rewrite list_elem_of_filter. intros [_ Htm]. by apply Htimers.
    + assert (forall l : list Timer,
                (forall tm, tm ∈ l -> callback tm = revert (other j)) ->
                forall st, status j (run (map callback l) st) = status j st) as Hrun.
      { induction l as [|tm l IH]; intros Hl st; [done|].
        change (run (map callback (tm :: l)) st)
          with (run (map callback l) (apply st (callback tm))).
        rewrite IH by (intros tm' Htm'; apply Hl; by right).
        rewrite (Hl tm) by left.
        rewrite <- (other_other j) at 1 3. apply revert_frame. }
      apply Hrun. intros tm. rewrite list_elem_of_filter. intros [_ Htm].
      by apply Htimers.
Qed.

Lemma quiet_steps (j : Job) (evs : list Event) (w : World) :
  quiet j w -> Forall (fun ev => ev <> Click j) evs ->
  quiet j (steps evs w) /\ status j (panel (steps evs w)) = status j (panel w).
Proof.
  revert w. induction evs as [|ev evs IH]; intros w Hw Hevs; [done|].
  apply Forall_cons in Hevs as [Hev Hevs].
  destruct (quiet_step j w ev Hw Hev) as [Hw' Hstatus].
  simpl. destruct (IH (step w ev) Hw' Hevs) as [Hq ->]. done.
Qed.

Lemma quiet_mounted (j : Job) : quiet j mounted.
Proof. split; intros x Hx; simpl in Hx; by apply elem_of_nil in Hx. Qed.

End PanelFacts.

Section PanelClaims.
Context `{Host}.
Import ControlPanel.

(** C7.  Nothing in the lifecycle of a trigger of job [k] (the call up to
    its request, the handling of the response or error, the callback of
    the timer it sets) changes the status of the other job, and
    [checkHealth] changes the status of neither.  Hence, from a state in
    which the other job is at rest, its status stays what it was
    throughout every run in which it is not triggered itself. *)
Theorem job_statuses_are_independent (k : Job) :
  (forall st, status (other k) (run (trigger_begin k) st) = status (other k) st) /\
  (forall response st,
      status (other k) (run (trigger_resume k response) st) = status (other k) st /\
      forall cb ms,
        (cb, ms) ∈ timeouts (trigger_resume k response) ->
        status (other k) (apply st cb) = status (other k) st) /\
  (forall response j st,
      status j (run checkHealth_begin st) = status j st /\
      status j (run (checkHealth_resume response) st) = status j st) /\
  (forall w evs,
      quiet (other k) w ->
      Forall (fun ev => ev <> Click (other k)) evs ->
      forall n, status (other k) (panel (steps (take n evs) w))
                = status (other k) (panel w)).
Proof.
  split; [|split; [|split]].
  - apply trigger_begin_frame.
  - intros response st. split; [apply trigger_resume_frame|].
    intros cb ms. rewrite trigger_resume_timeouts, list_elem_of_singleton.
    intros [= -> _]. apply revert_frame.
  - intros response j st. apply checkHealth_frame.
  - intros w evs Hw Hevs n.
    apply quiet_steps; [done|]. by apply Forall_take.
Qed.

(** C3, as amended.  No timer is ever cancelled: a trigger call leaves the
    pending timers in place, and the handling of its response adds one
    timer, due 3000 ms later, that sets the status of its job to [idle].
    When time passes, the status of job [k] becomes [idle] as soon as any
    timer of [k] is due, whichever call set it and whatever the status
    is, and is unchanged while none is due.  So after a retrigger, the
    timer of the superseded call still reverts the newer status. *)
Theorem revert_timers_are_never_cancelled (evs : list Event) :
  let w := steps evs mounted in
  (forall k, timers (step w (Click k)) = timers w) /\
  (forall id k response,
      id ∈ pending w -> calls w !! id = Some k ->
      timers (step w (Reply id response))
      = timers w ++ [ {| due := now w + 3000; callback := revert k; owner := id |} ]) /\
  (forall k ms,
      (exists tm, tm ∈ timers w /\ callback tm = revert k /\ due tm <= now w + ms) ->
      status k (panel (step w (Elapse ms))) = idle) /\
  (forall k ms,
      (forall tm, tm ∈ timers w -> callback tm = revert k -> now w + ms < due tm) ->
      status k (panel (step w (Elapse ms))) = status k (panel w)).
Proof.
  intros w.
  assert (reverts_only w) as Hw
    by (apply reverts_only_steps, reverts_only_mounted).
  split; [done|]. split; [|split].
  - intros id k response Hid Hcall. simpl. rewrite Hcall.
    rewrite bool_decide_eq_true_2 by done. simpl. by rewrite schedule_resume.
  - intros k ms. by apply elapse_status.
  - intros k ms. by apply elapse_status.
Qed.

End PanelClaims.

Section PanelExamples.
Import ControlPanel.
Existing Instance ExampleHost.host.


Lemma job_statuses_are_independent_witness :
  let evs := [ Click scrape; Reply 0 scraper_busy;
               HealthReply (Throw (AxiosError "Network Error" None));
               Elapse 3000; Elapse 7000;
               HealthReply (Ok (Obj [("status", Str "ok")])) ] in
  quiet import mounted /\
  Forall (fun ev => ev <> Click import) evs /\
  allowed evs mounted = true /\
  (forall n, importStatus (panel (steps (take n evs) mounted)) = idle) /\
  panel (steps (take 2 evs) mounted)
  = {| health := Null; scrapeStatus := error; importStatus := idle;
       message := Str "scraper busy" |} /\
  scrapeStatus (panel (steps (take 4 evs) mounted)) = idle.
Proof.
  intros evs.
  assert (quiet import mounted) as Hquiet by apply quiet_mounted.
  assert (Forall (fun ev => ev <> Click import) evs) as Hevs
    by (repeat constructor; discriminate).
  split; [exact Hquiet|]. split; [exact Hevs|]. split; [reflexivity|].
  split; [|split; reflexivity].
  exact (proj2 (proj2 (proj2 (job_statuses_are_independent scrape)))
           mounted evs Hquiet Hevs).
Defined.


(** The last example of the specification (section 8): a failed poll, then
    a successful one ten seconds later. *)
Example health_error_then_ok :
  let evs := [ HealthReply (Throw (AxiosError "Network Error" None));
               Elapse 10000;
               HealthReply (Ok (Obj [("status", Str "ok")])) ] in
  allowed evs mounted = true /\
  health (panel (steps (take 1 evs) mounted))
  = Obj [("status", Str "error"); ("error", Str "Network Error")] /\
  health (panel (steps evs mounted)) = Obj [("status", Str "ok")].
Proof. by vm_compute. Qed.

Lemma revert_timers_are_never_cancelled_witness :
  let w := steps retrigger mounted in
  let stale := {| due := 3000; callback := revert scrape; owner := 0 |} in
  (stale ∈ timers w /\ callback stale = revert scrape /\ due stale <= now w + 1000) /\
  status scrape (panel (step w (Elapse 1000))) = idle /\
  (forall tm, tm ∈ timers w -> callback tm = revert import -> now w + 1000 < due tm) /\
  status import (panel (step w (Elapse 1000))) = status import (panel w).
Proof.
  intros w stale.
  destruct (revert_timers_are_never_cancelled retrigger) as (_ & _ & Hdue & Hnone).
  assert (stale ∈ timers w /\ callback stale = revert scrape /\ due stale <= now w + 1000)
    as Hstale.
  { split; [left|]. split; [reflexivity|]. vm_compute. discriminate. }
  assert (forall tm, tm ∈ timers w -> callback tm = revert import -> now w + 1000 < due tm)
    as Hquiet.
  { intros tm Htm Hcb. vm_compute in Htm.
    apply elem_of_cons in Htm as [-> | Htm]; [discriminate|].
    apply list_elem_of_singleton in Htm as ->. discriminate. }
  split; [exact Hstale|]. split; [|split; [exact Hquiet|]].
  - apply (Hdue scrape 1000). exists stale. exact Hstale.
  - exact (Hnone import 1000 Hquiet).
Defined.

(** C3 as stated fails when a job is retriggered within the revert
    delay.  The scraper is started at time 0 and again at time 1000; the
    second response arrives at time 2000 and sets the status to
    [success], to be reverted at 5000 by the second call's timer.  At
    time 3000 the first call's timer fires and sets the status to
    [idle]. *)
Lemma stale_timer_reverts_newer_status :
  let w := steps retrigger mounted in
  allowed retrigger mounted = true /\
  latest scrape w = Some 1%nat /\
  now w = 2000 /\
  scrapeStatus (panel w) = success /\
  timers w = [ {| due := 3000; callback := setScrapeStatus idle; owner := 0 |};
               {| due := 5000; callback := setScrapeStatus idle; owner := 1 |} ] /\
  now (step w (Elapse 1000)) = 3000 /\
  scrapeStatus (panel (step w (Elapse 1000))) = idle /\
  timers (step w (Elapse 1000))
  = [ {| due := 5000; callback := setScrapeStatus idle; owner := 1 |} ].
Proof. by vm_compute. Qed.

End PanelExamples.

(** * Further properties *)

(** ** The session as a whole *)

Section SessionFacts.
Context `{Host}.

Lemma handleSubmit_resume_thrown q response :
  thrown response = true ->
  exists error,
    handleSubmit_resume q response
    = [ appendHistory
          (Answer Undefined Undefined Undefined Undefined
             (JS.or (JS.or (detail error) (message_of error))
                    (Str "Failed to process query")));
        setLoading false ].
Proof.
  intros Hthrown. unfold handleSubmit_resume.
  destruct (handleSubmit_try_thrown q response Hthrown) as [error ->].
  by exists error.
Qed.

Lemma handleSubmit_resume_ok q response :
  thrown response = false ->
  exists data,
    response = Ok data /\
    handleSubmit_resume q response
    = [ appendHistory (Answer (Str q) (JS.field data "sql") (JS.field data "data")
                         (JS.field data "columns") (JS.field data "error"));
        appendConversation
          {| role := user; content := q |}
          {| role := assistant;
             content := "I searched for: " +:+ q +:+ ". The SQL query was: "
                        +:+ JS.String (JS.field data "sql") |};
        setLoading false ].
Proof.
  intros Hthrown. unfold handleSubmit_resume.
  destruct (handleSubmit_try_ok q response Hthrown) as (data & -> & ->).
  by exists data.
Qed.

(** What settling a request does to the state, in one statement. *)
Lemma handleSubmit_resume_state q response st :
  exists a,
    answers q a /\
    is_answer a = true /\
    run (handleSubmit_resume q response) st
    = {| question := question st; loading := false;
         history := history st ++ [a];
         conversationHistory := conversationHistory st ++ summary a |} /\
    (thrown response = true -> summary a = [] /\
       exists e, a = Answer Undefined Undefined Undefined Undefined e
                 /\ JS.truthy e = true) /\
    (thrown response = false -> length (summary a) = 2%nat).
Proof.
  destruct (thrown response) eqn:Hthrown.
  - destruct (handleSubmit_resume_thrown q response Hthrown) as [error ->].
    exists (Answer Undefined Undefined Undefined Undefined
              (JS.or (JS.or (detail error) (message_of error))
                     (Str "Failed to process query"))).
    split; [by right|]. split; [done|]. split.
    + simpl. by rewrite app_nil_r.
    + split; [|done]. intros _. split; [done|]. eexists. split; [done|].
      unfold JS.or.
      destruct (JS.truthy (detail error)) eqn:Hd; [by rewrite Hd|].
      by destruct (JS.truthy (message_of error)) eqn:Hm; rewrite ?Hm.
  - destruct (handleSubmit_resume_ok q response Hthrown) as (data & -> & ->).
    exists (Answer (Str q) (JS.field data "sql") (JS.field data "data")
              (JS.field data "columns") (JS.field data "error")).
    split; [by left|]. split; [done|]. split; [done|]. done.
Qed.

Lemma handleSubmit_begin_state st :
  (JS.truthy (Str (trim (question st))) = false /\
   requests (handleSubmit_begin st) = [] /\
   run (handleSubmit_begin st) st = st) \/
  (JS.truthy (Str (trim (question st))) = true /\
   requests (handleSubmit_begin st)
   = [ {| req_question := question st;
          req_conversation_history := conversationHistory st |} ] /\
   run (handleSubmit_begin st) st
   = {| question := ""; loading := true;
        history := history st ++ [Question (question st)];
        conversationHistory := conversationHistory st |}).
Proof.
  unfold handleSubmit_begin.
  destruct (JS.truthy (Str (trim (question st)))); [right|left]; simpl; [done|].
  split; [done|]. split; [done|]. by destruct st.
Qed.

Lemma serialised_step (s : Session) (ev : Event) :
  serialised s -> enabled s ev = true -> serialised (step s ev).
Proof.
  intros Hs Hev. unfold serialised in *.
  destruct ev as [value|key| |i response|]; cbn [step enabled ui in_flight] in *.
  - done.
  - done.
  - unfold submit_disabled in Hev. apply negb_true_iff in Hev.
    apply orb_false_elim in Hev as [Hloading Htrim]. apply negb_false_iff in Htrim.
    destruct Hs as [[_ Hfl] | [Hl _]]; [|congruence].
    destruct (handleSubmit_begin_state (ui s)) as [(Hf & _) | (_ & Hreq & ->)];
      [congruence|].
    rewrite Hreq, Hfl. right. simpl. eauto.
  - apply Nat.ltb_lt in Hev.
    destruct Hs as [[_ Hfl] | [_ [q Hfl]]]; rewrite Hfl in *; simpl in Hev; [lia|].
    destruct i as [|i]; [|simpl in Hev; lia].
    change (([q] : list string) !! 0%nat) with (Some q). cbn [ui in_flight].
    destruct (handleSubmit_resume_state q response (ui s)) as (a & _ & _ & -> & _).
    by left.
  - done.
Qed.

(** X1.  Through the page, at most one query is in flight at any time, and
    [loading] is true exactly while one is: the form accepts no submission
    until the request in flight has settled. *)
Theorem one_request_in_flight (evs : list Event) :
  allowed evs session_start = true ->
  let s := steps evs session_start in
  (loading (ui s) = false /\ in_flight s = []) \/
  (loading (ui s) = true /\ exists q, in_flight s = [q]).
Proof.
  assert (forall s, serialised s -> allowed evs s = true -> serialised (steps evs s))
    as Hgen.
  { induction evs as [|ev evs IH]; intros s Hs Hevs; [done|].
    simpl in Hevs. apply andb_prop in Hevs as [Hev Hevs].
    simpl. apply IH; [by apply serialised_step|done]. }
  intros Hevs. apply Hgen; [by left|done].
Qed.

End SessionFacts.

Lemma one_request_in_flight_witness :
  let evs := [Change "pastaPrices"; Submit; NewConversation;
              Suggestion "tlvStores"] in
  allowed (H := ExampleHost.host) evs session_start = true /\
  in_flight (steps (H := ExampleHost.host) evs session_start) = ["pastaPrices"] /\
  enabled (steps (H := ExampleHost.host) evs session_start) Submit = false.
Proof.
  intros evs.
  assert (allowed (H := ExampleHost.host) evs session_start = true) as Hevs
    by reflexivity.
  split; [exact Hevs|].
  destruct (one_request_in_flight (H := ExampleHost.host) evs Hevs)
    as [[Hl _] | [_ [q Hq]]].
  - discriminate Hl.
  - split; reflexivity.
Defined.

Section TranscriptFacts.
Context `{Host}.

Lemma dialogue_snoc qas q a :
  dialogue (qas ++ [(q, a)]) = dialogue qas ++ [Question q; a].
Proof. unfold dialogue. by rewrite map_app, concat_app. Qed.

Lemma well_paired_step (s : Session) (ev : Event) :
  serialised s -> well_paired s ->
  enabled s ev = true -> is_reset ev = false ->
  well_paired (step s ev).
Proof.
  intros Hs (qas & Hqas & Hhist) Hev Hreset. unfold well_paired.
  destruct ev as [value|key| |i response|]; cbn [step enabled ui in_flight] in *.
  - by exists qas.
  - by exists qas.
  - destruct (handleSubmit_begin_state (ui s)) as [(_ & -> & ->) | (_ & -> & ->)].
    + exists qas. cbn [map]. by rewrite app_nil_r.
    + exists qas. split; [done|].
      cbn [map history req_question]. by rewrite Hhist, map_app, app_assoc.
  - apply Nat.ltb_lt in Hev.
    destruct Hs as [[_ Hfl] | [_ [q Hfl]]]; rewrite Hfl in *; simpl in Hev; [lia|].
    destruct i as [|i]; [|simpl in Hev; lia].
    change (([q] : list string) !! 0%nat) with (Some q). cbn [ui in_flight].
    destruct (handleSubmit_resume_state q response (ui s)) as (a & Ha & _ & -> & _).
    exists (qas ++ [(q, a)]). split.
    + apply Forall_app. split; [done|]. by constructor.
    + simpl. rewrite Hhist, dialogue_snoc. simpl.
      by rewrite app_nil_r, <- app_assoc.
  - discriminate.
Qed.

(** X2.  In a session without reset, the transcript is a sequence of
    questions, each immediately followed by its own answer (recorded from
    the response, or from the error), ending with the question whose request
    is still in flight, if there is one. *)
Theorem transcript_pairs_questions_with_answers (evs : list Event) :
  allowed evs session_start = true ->
  existsb is_reset evs = false ->
  let s := steps evs session_start in
  exists qas,
    Forall (fun qa => answers qa.1 qa.2) qas /\
    history (ui s) = dialogue qas ++ map Question (in_flight s).
Proof.
  assert (forall s, serialised s -> well_paired s ->
                    allowed evs s = true -> existsb is_reset evs = false ->
                    well_paired (steps evs s)) as Hgen.
  { induction evs as [|ev evs IH]; intros s Hs Hw Hevs Hreset; [done|].
    simpl in Hevs, Hreset. apply andb_prop in Hevs as [Hev Hevs].
    apply orb_false_elim in Hreset as [Hr Hreset].
    simpl. apply IH; [by apply serialised_step|by apply well_paired_step|done..]. }
  intros Hevs Hreset. apply Hgen; [by left| |done..].
  exists []. by split.
Qed.

Lemma summary_step (s : Session) (ev : Event) :
  conversationHistory (ui s) = concat (map summary (history (ui s))) ->
  conversationHistory (ui (step s ev))
  = concat (map summary (history (ui (step s ev)))).
Proof.
  intros Hs. destruct ev as [value|key| |i response|]; cbn [step ui].
  - done.
  - done.
  - destruct (handleSubmit_begin_state (ui s)) as [(_ & _ & ->) | (_ & _ & ->)];
      [done|].
    cbn [history conversationHistory].
    rewrite map_app, concat_app, <- Hs. simpl. by rewrite app_nil_r.
  - destruct (in_flight s !! i) as [q|]; [|done]. cbn [ui].
    destruct (handleSubmit_resume_state q response (ui s)) as (a & _ & _ & -> & _).
    cbn [history conversationHistory].
    rewrite map_app, concat_app, <- Hs. simpl. by rewrite app_nil_r.
  - done.
Qed.

(** X3.  Whatever happens in a session, resets and late responses included,
    the context is determined by the transcript: it lists, in order, the
    pair of turns of every answer recorded from a response, built from the
    question and the generated query alone, and nothing for questions and
    error entries.  A submission sends exactly that. *)
Theorem context_is_the_summary_of_the_transcript (evs : list Event) :
  let s := steps evs session_start in
  conversationHistory (ui s) = concat (map summary (history (ui s))) /\
  forall request,
    request ∈ requests (handleSubmit_begin (ui s)) ->
    req_question request = question (ui s) /\
    req_conversation_history request = concat (map summary (history (ui s))).
Proof.
  intros s.
  assert (conversationHistory (ui s) = concat (map summary (history (ui s)))) as Hs.
  { subst s. induction evs as [|ev evs IH] using rev_ind; [done|].
    unfold steps in *. rewrite fold_left_app. by apply summary_step. }
  split; [done|]. intros request.
  destruct (handleSubmit_begin_state (ui s)) as [(_ & -> & _) | (_ & -> & _)].
  - by intros ?%elem_of_nil.
  - intros ->%list_elem_of_singleton. by rewrite <- Hs.
Qed.

Lemma history_step (s : Session) (ev : Event) :
  is_reset ev = false ->
  exists entries turns,
    history (ui (step s ev)) = history (ui s) ++ entries /\
    (length entries <= 1)%nat /\
    conversationHistory (ui (step s ev)) = conversationHistory (ui s) ++ turns.
Proof.
  assert (forall st : State,
            exists entries turns,
              history st = history st ++ entries /\
              (length entries <= 1)%nat /\
              conversationHistory st = conversationHistory st ++ turns) as Hsame.
  { intros st. exists [], []. rewrite !app_nil_r. simpl. split_and!; [done|lia|done]. }
  intros Hreset. destruct ev as [value|key| |i response|]; cbn [step ui].
  - apply (Hsame (ui s)).
  - apply (Hsame (ui s)).
  - destruct (handleSubmit_begin_state (ui s)) as [(_ & _ & ->) | (_ & _ & ->)].
    + apply Hsame.
    + exists [Question (question (ui s))], []. by rewrite app_nil_r.
  - destruct (in_flight s !! i) as [q|]; [|apply Hsame]. cbn [ui].
    destruct (handleSubmit_resume_state q response (ui s)) as (a & _ & _ & -> & _).
    by exists [a], (summary a).
  - discriminate.
Qed.

(** X4.  Between resets the transcript and the context only grow: every
    event other than a reset keeps what is there and appends at most one
    entry to the transcript. *)
Theorem transcript_is_append_only (evs : list Event) (s : Session) :
  existsb is_reset evs = false ->
  exists entries turns,
    history (ui (steps evs s)) = history (ui s) ++ entries /\
    (length entries <= length evs)%nat /\
    conversationHistory (ui (steps evs s)) = conversationHistory (ui s) ++ turns.
Proof.
  revert s. induction evs as [|ev evs IH]; intros s Hreset.
  - exists [], []. by rewrite !app_nil_r.
  - simpl in Hreset. apply orb_false_elim in Hreset as [Hev Hreset].
    destruct (history_step s ev Hev) as (e1 & t1 & Hh1 & Hl1 & Hc1).
    destruct (IH (step s ev) Hreset) as (e2 & t2 & Hh2 & Hl2 & Hc2).
    exists (e1 ++ e2), (t1 ++ t2). simpl.
    rewrite Hh2, Hh1, Hc2, Hc1, !app_assoc, length_app. split; [done|].
    split; [lia|done].
Qed.



End TranscriptFacts.

Section TranscriptExamples.
Existing Instance ExampleHost.host.

Lemma transcript_pairs_questions_with_answers_witness :
  allowed two_turns session_start = true /\
  existsb is_reset two_turns = false /\
  exists qas,
    Forall (fun qa => answers qa.1 qa.2) qas /\
    history (ui (steps two_turns session_start))
    = dialogue qas ++ [Question "pastaPrices"].
Proof.
  assert (allowed two_turns session_start = true) as Hallowed by reflexivity.
  assert (existsb is_reset two_turns = false) as Hreset by reflexivity.
  split; [exact Hallowed|]. split; [exact Hreset|].
  exact (transcript_pairs_questions_with_answers two_turns Hallowed Hreset).
Defined.

Lemma context_is_the_summary_of_the_transcript_witness :
  let s := steps two_turns session_start in
  let request := {| req_question := "pastaPrices";
                    req_conversation_history := conversationHistory (ui s) |} in
  let s0 := steps (take 4 two_turns) session_start in
  request ∈ requests (handleSubmit_begin (ui s0)) /\
  req_conversation_history request = concat (map summary (history (ui s0))) /\
  length (req_conversation_history request) = 2%nat.
Proof.
  intros s request s0.
  assert (request ∈ requests (handleSubmit_begin (ui s0))) as Hreq by left.
  split; [exact Hreq|]. split; [|reflexivity].
  exact (proj2 (proj2 (context_is_the_summary_of_the_transcript (take 4 two_turns))
                  request Hreq)).
Defined.

Lemma transcript_is_append_only_witness :
  existsb is_reset two_turns = false /\
  exists entries turns,
    history (ui (steps (drop 3 two_turns) (steps (take 3 two_turns) session_start)))
    = history (ui (steps (take 3 two_turns) session_start)) ++ entries /\
    (length entries <= 2)%nat /\
    conversationHistory
      (ui (steps (drop 3 two_turns) (steps (take 3 two_turns) session_start)))
    = conversationHistory (ui (steps (take 3 two_turns) session_start)) ++ turns.
Proof.
  split; [reflexivity|].
  apply (transcript_is_append_only (drop 3 two_turns)
           (steps (take 3 two_turns) session_start)).
  reflexivity.
Defined.



End TranscriptExamples.

(** ** The guard of the form *)






(** ** The results table *)


Lemma mapM_index_throw {A B} (f : nat -> A -> Result B) (l : list A) (i : nat) :
  (exists a, a ∈ l /\ forall j, exists e, f j a = Throw e) ->
  exists e, mapM_index f i l = Throw e.
Proof.
  revert i. induction l as [|a l IH]; intros i (a' & Hin & Ha').
  - by apply elem_of_nil in Hin.
  - simpl. destruct (f i a) as [b|e] eqn:Hfa; [|by exists e].
    apply elem_of_cons in Hin as [-> | Hin].
    + destruct (Ha' i) as [e He]. congruence.
    + destruct (IH (S i)) as [e He]; [by exists a'|]. simpl. rewrite He. by exists e.
Qed.


Section TableFacts.
Context `{Host}.


Lemma nonempty_length (rows : list Value) :
  rows <> [] ->
  gt_zero (length_of (Arr rows)) = true /\ is_zero (length_of (Arr rows)) = false.
Proof. by destruct rows. Qed.


(** X9.  When the result set has rows but the column list is not an array
    (it is absent, say), or one of the rows is not an array, rendering the
    answer throws: nothing catches the TypeError of [map]. *)
Theorem malformed_table_throws (q sql error columns : Value) (rows : list Value) :
  JS.truthy error = false ->
  rows <> [] ->
  (forall cols, columns <> Arr cols) \/
  (exists row, row ∈ rows /\ forall cells, row <> Arr cells) ->
  exists e, renderEntry (Answer q sql (Arr rows) columns error) = Throw e.
Proof.
  intros Herror Hrows Hbad.
  destruct (nonempty_length rows Hrows) as [Hpos Hzero].
  cbn [renderEntry]. rewrite Herror. cbn [JS.truthy negb]. rewrite Hpos.
  unfold renderTable.
  destruct (map_value (fun _ col => Ok (header col)) columns) as [head|e] eqn:Hhead;
    [|by exists e].
  destruct Hbad as [Hcols | (row & Hin & Hrow)].
  { destruct columns; simpl in Hhead; try discriminate. by destruct (Hcols items). }
  cbn [mbind Result_bind map_value].
  destruct (mapM_index_throw
              (fun _ row => map_value
                 (fun j cell => formatCell cell (column columns j)) row) rows 0)
    as [e ->].
  - exists row. split; [done|]. intros _.
    destruct row; simpl; eauto. by destruct (Hrow items).
  - by exists e.
Qed.

Lemma renderTable_ok (data columns : Value) (node : Node) :
  renderTable data columns = Ok node ->
  exists head body, node = ResultsTable head body.
Proof.
  unfold renderTable.
  destruct (map_value _ columns) as [head|e]; cbn [mbind Result_bind]; [|discriminate].
  destruct (map_value _ data) as [body|e]; cbn [mbind Result_bind]; [|discriminate].
  intros [= <-]. eauto.
Qed.

(** X10.  An entry renders to one thing: a question to the user's message;
    an answer to the error box alone when it has an error, whatever else it
    carries, and otherwise to the table alone, to the "no results" box
    alone, to a bare falsy number, or to nothing.  The table and the "no
    results" box never appear together. *)
Theorem entry_renders_one_thing (item : Entry) (nodes : list Node) :
  renderEntry item = Ok nodes ->
  match item with
  | Question content => nodes = [UserMessage content]
  | Answer _ _ data columns error =>
      if JS.truthy error then nodes = [ErrorBox error]
      else (exists head body, nodes = [ResultsTable head body])
           \/ nodes = [NoResults]
           \/ (exists text, nodes = [Text text; Text text])
           \/ nodes = []
  end.
Proof.
  destruct item as [content|q sql data columns error]; cbn [renderEntry].
  - by intros [= <-].
  - destruct (JS.truthy error); [by intros [= <-]|].
    destruct (JS.truthy data) eqn:Hdata; cbn [negb].
    + destruct (gt_zero (length_of data)) eqn:Hpos.
      * assert (is_zero (length_of data) = false) as ->.
        { destruct (length_of data) as [| | |[]| | |]; try done.
          all: by destruct data. }
        destruct (renderTable data columns) as [node|e] eqn:Htable;
          cbn [mbind Result_bind]; [|discriminate].
        destruct (renderTable_ok data columns node Htable) as (head & body & ->).
        intros [= <-]. left. eauto.
      * cbn [mbind Result_bind app].
        destruct (is_zero (length_of data)); intros [= <-]; auto.
    + destruct data as [| | |[]| | |]; intros [= <-]; auto.
      all: right; right; left; eauto.
Qed.

End TableFacts.

(** ** The value that a formatted price shows *)

Lemma read_digits_acc (u : Decimal.uint) (p : positive) :
  fold_left (fun acc c => 10 * acc + (Z.of_nat (nat_of_ascii c) - 48))
    (list_ascii_of_string (NilEmpty.string_of_uint u)) (Zpos p)
  = Zpos (Pos.of_uint_acc u p).
Proof.
  revert p. induction u; intros p; cbn [NilEmpty.string_of_uint list_ascii_of_string
    fold_left Pos.of_uint_acc]; [done|rewrite <- IHu; f_equal; vm_compute (nat_of_ascii _); lia..].
Qed.

Lemma read_digits_uint (u : Decimal.uint) :
  read_digits (list_ascii_of_string (NilEmpty.string_of_uint u)) = Z.of_N (Pos.of_uint u).
Proof.
  unfold read_digits.
  induction u;
    cbn [NilEmpty.string_of_uint list_ascii_of_string fold_left Pos.of_uint Z.of_N];
    [done|exact IHu|rewrite <- read_digits_acc; f_equal..].
Qed.

Lemma read_digits_decimal (n : Z) :
  0 <= n -> read_digits (list_ascii_of_string (decimal n)) = n.
Proof.
  intros Hn. unfold decimal. rewrite read_digits_uint.
  change (Pos.of_uint (N.to_uint (Z.to_N n))) with (N.of_uint (N.to_uint (Z.to_N n))).
  rewrite DecimalN.Unsigned.of_to. by apply Z2N.id.
Qed.

Lemma read_digits_zeros (k : nat) (l : list ascii) :
  read_digits (repeat "0"%char k ++ l) = read_digits l.
Proof.
  unfold read_digits. rewrite fold_left_app.
  assert (fold_left (fun acc c => 10 * acc + (Z.of_nat (nat_of_ascii c) - 48))
            (repeat "0"%char k) 0 = 0) as ->; [|done].
  induction k as [|k IH]; [done|]. exact IH.
Qed.

Lemma filter_digits (l : list ascii) :
  forallb is_digit l = true -> filter (fun c => is_digit c) l = l.
Proof.
  induction l as [|c l IH]; [done|]. simpl. intros [Hc Hl]%andb_prop.
  rewrite filter_cons_True by (by rewrite Hc). by rewrite IH.
Qed.

Lemma read_fixed_parts (neg : bool) (a b : list ascii) :
  a <> [] ->
  forallb is_digit a = true ->
  forallb is_digit b = true ->
  read_fixed ((if neg then "-" else "") +:+ string_of_list_ascii a
              +:+ "." +:+ string_of_list_ascii b)
  = (neg, read_digits (a ++ b)).
Proof.
  intros Hne Ha Hb. unfold read_fixed.
  rewrite !list_ascii_of_string_app, !list_ascii_of_string_of_list_ascii.
  f_equal.
  - destruct neg; [done|]. destruct a as [|c a]; [done|]. simpl in *.
    apply andb_prop in Ha as [Hc _].
    destruct (Ascii.eqb_spec c "-") as [->|_]; [discriminate|done].
  - rewrite !filter_app, (filter_digits a Ha), (filter_digits b Hb).
    by destruct neg.
Qed.

Lemma fixed_digits_read (f : nat) (n : Z) :
  f <> O -> 0 <= n ->
  exists a b,
    Num.fixed_digits f n = string_of_list_ascii a +:+ "." +:+ string_of_list_ascii b /\
    a <> [] /\ forallb is_digit a = true /\ forallb is_digit b = true /\
    length b = f /\ read_digits (a ++ b) = n.
Proof.
  intros Hf Hn. unfold Num.fixed_digits.
  destruct (Nat.eqb_spec f 0) as [|_]; [done|].
  set (m := if (String.length (decimal n) <=? f)%nat
            then zeros (f + 1 - String.length (decimal n)) +:+ decimal n
            else decimal n).
  assert (forallb is_digit (list_ascii_of_string m) = true
          /\ read_digits (list_ascii_of_string m) = n) as [Hdigits Hread].
  { subst m. destruct (_ <=? _)%nat; [|by rewrite decimal_digits, read_digits_decimal].
    unfold zeros.
    rewrite list_ascii_of_string_app, list_ascii_of_string_of_list_ascii, forallb_app.
    by rewrite zeros_digits, decimal_digits, read_digits_zeros, read_digits_decimal. }
  assert (f < String.length m)%nat as Hlen.
  { subst m. destruct (Nat.leb_spec (String.length (decimal n)) f) as [Hle|Hlt]; [|done].
    unfold zeros.
    rewrite string_length_list, list_ascii_of_string_app,
      list_ascii_of_string_of_list_ascii, length_app, repeat_length,
      <- string_length_list.
    lia. }
  unfold split_at.
  exists (take (String.length m - f) (list_ascii_of_string m)),
         (drop (String.length m - f) (list_ascii_of_string m)).
  split; [done|].
  rewrite take_drop. rewrite string_length_list in *.
  split_and!; [|by apply forallb_take|by apply forallb_drop| |done].
  - intros Hnil. apply (f_equal length) in Hnil.
    rewrite length_take in Hnil. simpl in Hnil. lia.
  - rewrite length_drop. lia.
Qed.

(** X11.  For a finite number of magnitude below 10^21, [toFixed(2)] prints
    the sign of the number and the multiple of 0.01 nearest to its
    magnitude, the larger one when two are equally near: the digits read
    back as an integer [n] of hundredths with
    [-1/200 < n/100 - |x| <= 1/200]. *)
Theorem toFixed_shows_nearest_hundredth (s : bool) (m : positive) (e : Z) :
  Num.below_1e21 (S754_finite s m e) = true ->
  exists n,
    read_fixed (Num.toFixed 2 (S754_finite s m e)) = (s, n) /\
    0 <= n /\
    (- (1 # 200) < inject_Z n / 100 - Num.mag m e)%Q /\
    (inject_Z n / 100 - Num.mag m e <= 1 # 200)%Q.
Proof.
  intros Hx. cbn [Num.below_1e21] in Hx. unfold Num.Qltb in Hx.
  apply negb_true_iff in Hx. unfold Num.toFixed. rewrite Hx.
  change (Qpower 10 (Z.of_nat 2)) with (100 # 1).
  set (x := Num.mag m e).
  set (n := Qfloor (x * (100 # 1) + (1 # 2))%Q).
  assert (0 <= x)%Q as Hx0.
  { subst x. unfold Num.mag. apply Qmult_le_0_compat; [done|].
    by apply Qpower_0_le. }
  pose proof (Qfloor_le (x * (100 # 1) + (1 # 2))%Q) as Hle.
  pose proof (Qlt_floor (x * (100 # 1) + (1 # 2))%Q) as Hlt.
  fold n in Hle, Hlt. rewrite inject_Z_plus in Hlt.
  assert (0 <= n) as Hn.
  { change 0 with (Qfloor 0). apply Qfloor_resp_le. lra. }
  destruct (fixed_digits_read 2 n) as (a & b & -> & Hne & Ha & Hb & _ & Hread);
    [done..|].
  exists n. split; [by rewrite read_fixed_parts, Hread|].
  split; [done|]. change (inject_Z 1) with 1%Q in Hlt.
  generalize dependent (inject_Z n). clearbody x. intros q Hle Hlt.
  unfold Qdiv. change (/ 100)%Q with (1 # 100). split; lra.
Qed.

Lemma toFixed_shows_nearest_hundredth_witness :
  Num.below_1e21 num_6_9 = true /\
  exists n,
    read_fixed (Num.toFixed 2 num_6_9) = (false, n) /\
    0 <= n /\
    (- (1 # 200) < inject_Z n / 100 - Num.mag 7768709357214106 (-50))%Q /\
    (inject_Z n / 100 - Num.mag 7768709357214106 (-50) <= 1 # 200)%Q.
Proof.
  assert (Num.below_1e21 num_6_9 = true) as Hx by (vm_compute; reflexivity).
  split; [exact Hx|].
  exact (toFixed_shows_nearest_hundredth false 7768709357214106 (-50) Hx).
Defined.

Section TableExamples.
Existing Instance ExampleHost.host.


Lemma malformed_table_throws_witness :
  let rows := [Arr [Str "Store A"; Num num_6_9]] in
  JS.truthy Undefined = false /\
  rows <> [] /\
  (forall cols, Undefined <> Arr cols) /\
  exists e,
    renderEntry (Answer (Str "cheapestMilk") (Str "SELECT ...") (Arr rows) Undefined
                   Undefined) = Throw e.
Proof.
  intros rows.
  assert (JS.truthy Undefined = false) as Herror by reflexivity.
  assert (rows <> []) as Hrows by discriminate.
  assert (forall cols, Undefined <> Arr cols) as Hcols by discriminate.
  split; [exact Herror|]. split; [exact Hrows|]. split; [exact Hcols|].
  exact (malformed_table_throws (Str "cheapestMilk") (Str "SELECT ...") Undefined
           Undefined rows Herror Hrows (or_introl Hcols)).
Defined.

Lemma entry_renders_one_thing_witness :
  let item := Answer (Str "q") (Str "SELECT 1")
                (Arr [Arr [Num num_7_25]]) (Arr [Str "price"]) (Str "partial failure") in
  renderEntry item = Ok [ErrorBox (Str "partial failure")] /\
  [ErrorBox (Str "partial failure")] = [ErrorBox (Str "partial failure")].
Proof.
  intros item.
  assert (renderEntry item = Ok [ErrorBox (Str "partial failure")]) as Hitem
    by reflexivity.
  split; [exact Hitem|].
  exact (entry_renders_one_thing item _ Hitem).
Defined.

End TableExamples.

(** ** The language of the page *)

Section LanguageFacts.
Import Language.

Lemma toggleLanguage_consistent (env : Env) :
  let env' := toggleLanguage env in
  language env' = (if String.eqb (language env) "en" then "heb" else "en")%string /\
  item env' = Some (language env') /\
  dir env' = direction (language env').
Proof. done. Qed.

(** X12.  Once the language has been toggled, it is one of ['en'] and
    ['heb'], it is the one stored, and the direction of the document
    follows it (right-to-left exactly for ['heb']).  The toggle alternates
    between the two; from any other saved language the first toggle goes
    to ['en']. *)
Theorem language_after_toggles (stored : option string) (n : nat) :
  let env := toggles (S n) (load stored) in
  language env
    = (if Bool.eqb (String.eqb (savedLanguage stored) "en") (Nat.even n)
       then "heb" else "en")%string /\
  item env = Some (language env) /\
  dir env = direction (language env) /\
  dir env = (if String.eqb (language env) "heb" then "rtl" else "ltr")%string.
Proof.
  intros env. subst env.
  assert (forall e, item (toggleLanguage e) = Some (language (toggleLanguage e))
                    /\ dir (toggleLanguage e) = direction (language (toggleLanguage e)))
    as Htoggle by done.
  split; [|by destruct (Htoggle (toggles n (load stored)))].
  induction n as [|n IH].
  - change (toggles 1 (load stored)) with (toggleLanguage (load stored)).
    cbn -[String.eqb savedLanguage direction].
    by destruct (String.eqb (savedLanguage stored) "en").
  - change (toggles (S (S n)) (load stored))
      with (toggleLanguage (toggles (S n) (load stored))).
    unfold toggleLanguage at 1. cbn [App_effect language]. rewrite IH.
    rewrite Nat.even_succ, <- Nat.negb_even.
    by destruct (String.eqb (savedLanguage stored) "en"), (Nat.even n).
Qed.

(** X13.  The language survives a reload: loading the page with what a
    toggle stored gives back the language and the direction that the toggle
    left.  With nothing stored, or with an empty item, the page loads in
    English, left to right. *)
Theorem language_survives_reload (stored : option string) (n : nat) :
  load (item (toggles (S n) (load stored))) = toggles (S n) (load stored) /\
  language (load None) = "en"%string /\
  language (load (Some ""%string)) = "en"%string /\
  dir (load None) = "ltr"%string.
Proof.
  split; [|done].
  destruct (language_after_toggles stored n) as (Hlang & Hitem & Hdir & _).
  destruct (toggles (S n) (load stored)) as [lang it d]. simpl in *. subst.
  unfold load, App_effect. simpl.
  by destruct (Bool.eqb _ _).
Qed.

End LanguageFacts.

(** ** The control panel over time *)

Section PanelLifecycle.
Context `{Host}.
Import ControlPanel PanelView.

Lemma trigger_resume_state (k : Job) (response : Result Value) (st : State) :
  status k (run (trigger_resume k response) st)
  = (if thrown response then error else success) /\
  message (run (trigger_resume k response) st)
  = match response with
    | Ok data => if JS.nullish data
                 then Str (match k with
                           | scrape => "Failed to start scraper"
                           | import => "Failed to start importer"
                           end)
                 else JS.field data "message"
    | Throw err => JS.or (detail err)
                     (Str (match k with
                           | scrape => "Failed to start scraper"
                           | import => "Failed to start importer"
                           end))
    end.
Proof.
  destruct response as [data|err].
  - destruct data, k; done.
  - destruct k; done.
Qed.

Lemma elapse_status_decide (w : World) (ms : Z) (k : Job) :
  reverts_only w ->
  status k (panel (step w (Elapse ms)))
  = if bool_decide
         (k ∈ map (fun tm => job_of (callback tm))
                  (filter (fun tm => is_due (now w + ms) tm) (timers w)))
    then idle else status k (panel w).
Proof.
  intros Hw. cbn [step panel].
  rewrite callbacks_are_reverts.
  - apply run_reverts.
  - intros tm. rewrite list_elem_of_filter. intros [_ Htm]. by apply Hw.
Qed.

Lemma quiet_reverts_only (k : Job) (w : World) : quiet k w -> reverts_only w.
Proof. intros [_ Htimers] tm Htm. exists (other k). by apply Htimers. Qed.

(** X14.  The lifecycle of a trigger that nothing interferes with: from a
    state in which job [k] is at rest, the click sets its status to
    [loading], empties the message area and disables its button; the
    response sets the status to [success], and an error or a body that is
    [null] or [undefined] to [error]; the status then stays for 3000 ms and
    is [idle] from then on. *)
Theorem trigger_lifecycle (k : Job) (w : World) (response : Result Value) :
  quiet k w ->
  let w1 := step w (Click k) in
  let w2 := step w1 (Reply (length (calls w)) response) in
  status k (panel w1) = loading /\
  messageArea (panel w1) = Nothing /\
  button_disabled k (panel w1) = true /\
  status k (panel w2) = (if thrown response then error else success) /\
  button_disabled k (panel w2) = false /\
  forall ms,
    status k (panel (step w2 (Elapse ms)))
    = if ms <? 3000 then status k (panel w2) else idle.
Proof.
  intros Hquiet w1 w2.
  assert (status k (panel w1) = loading) as Hloading by (by destruct k).
  assert (calls w1 !! length (calls w) = Some k) as Hcall.
  { subst w1. cbn [step calls]. by rewrite lookup_app_r, Nat.sub_diag. }
  assert (length (calls w) ∈ pending w1) as Hpending.
  { subst w1. cbn [step pending]. apply elem_of_app. right. by left. }
  assert (w2 = {| panel := run (trigger_resume k response) (panel w1);
                  now := now w;
                  timers := timers w ++ [ {| due := now w + 3000;
                                             callback := revert k;
                                             owner := length (calls w) |} ];
                  calls := calls w1;
                  pending := filter (fun i => i ≠ length (calls w)) (pending w1);
                  health_in_flight := health_in_flight w |}) as Hw2.
  { subst w2. cbn [step]. rewrite Hcall, bool_decide_eq_true_2 by done.
    by rewrite schedule_resume. }
  destruct (trigger_resume_state k response (panel w1)) as [Hstatus _].
  assert (status k (panel w2) = (if thrown response then error else success))
    as Hstatus2 by (by rewrite Hw2).
  split; [done|]. split; [by destruct k|]. split.
  { unfold button_disabled. by rewrite Hloading. }
  split; [done|]. split.
  { unfold button_disabled. rewrite Hstatus2. by destruct (thrown response). }
  intros ms.
  assert (reverts_only w2) as Hreverts.
  { rewrite Hw2. intros tm. cbn [timers].
    rewrite elem_of_app, list_elem_of_singleton. intros [Htm | ->].
    - by apply (quiet_reverts_only k w).
    - by exists k. }
  destruct (elapse_status w2 ms k Hreverts) as [Hdue Hnone].
  destruct (Z.ltb_spec ms 3000) as [Hlt | Hge].
  - apply Hnone. rewrite Hw2. intros tm. cbn [timers now].
    rewrite elem_of_app, list_elem_of_singleton. intros [Htm | ->] Hcb.
    + destruct Hquiet as [_ Htimers]. rewrite (Htimers tm Htm) in Hcb.
      by destruct k.
    + simpl. lia.
  - apply Hdue. exists {| due := now w + 3000; callback := revert k;
                          owner := length (calls w) |}.
    rewrite Hw2. cbn [timers now]. split; [|split; [done|simpl; lia]].
    apply elem_of_app. right. by left.
Qed.

Lemma timely_step (w : World) (ev : Event) :
  timely w -> enabled w ev = true -> timely (step w ev).
Proof.
  intros Hw Hev. destruct ev as [k|id response|response|ms]; cbn [step]; try done.
  - destruct (calls w !! id) as [k|]; [|done]. case_bool_decide; [|done].
    intros tm. cbn [timers now]. rewrite schedule_resume, elem_of_app,
      list_elem_of_singleton.
    intros [Htm | ->]; [by apply Hw|]. simpl. lia.
  - cbn [enabled] in Hev. apply Z.leb_le in Hev.
    intros tm. cbn [timers now]. rewrite list_elem_of_filter. intros [Hdue Htm].
    unfold is_due in Hdue. apply Is_true_true, negb_true_iff, Z.leb_gt in Hdue.
    specialize (Hw tm Htm). lia.
Qed.

Lemma outcome_has_timer_step (w : World) (ev : Event) :
  reverts_only w -> outcome_has_timer w -> outcome_has_timer (step w ev).
Proof.
  intros Hr Hw. destruct ev as [k|id response|response|ms].
  - intros j Hj. cbn [step timers panel] in *.
    destruct (decide (j = k)) as [->|Hne].
    + assert (status k (run (trigger_begin k) (panel w)) = loading) as Hl
        by (by destruct k).
      rewrite Hl in Hj. by destruct Hj.
    + assert (j = other k) as -> by (by apply neq_other).
      apply Hw. by rewrite trigger_begin_frame in Hj.
  - cbn [step]. destruct (calls w !! id) as [k|]; [|done].
    case_bool_decide; [|done].
    intros j Hj. cbn [timers panel] in *. rewrite schedule_resume.
    destruct (decide (j = k)) as [->|Hne].
    + eexists. split; [apply elem_of_app; right; by left|done].
    + assert (j = other k) as -> by (by apply neq_other).
      rewrite trigger_resume_frame in Hj.
      destruct (Hw (other k) Hj) as (tm & Htm & Hcb).
      exists tm. split; [|done]. apply elem_of_app. by left.
  - intros j Hj. cbn [step timers panel] in *. apply Hw.
    by rewrite (proj2 (checkHealth_frame response j (panel w))) in Hj.
  - intros j Hj. rewrite elapse_status_decide in Hj by done.
    case_bool_decide as Hin; [by destruct Hj|].
    destruct (Hw j Hj) as (tm & Htm & Hcb).
    exists tm. split; [|done]. cbn [step timers].
    apply list_elem_of_filter. split; [|done].
    apply Is_true_true, negb_true_iff. apply not_true_is_false. intros Hdue.
    apply Hin, list_elem_of_fmap. exists tm. split.
    + by rewrite Hcb, job_of_revert.
    + apply list_elem_of_filter. split; [by apply Is_true_true|done].
Qed.

Lemma panel_invariants (evs : list Event) (w : World) :
  reverts_only w -> timely w -> outcome_has_timer w ->
  allowed evs w = true ->
  reverts_only (steps evs w) /\ timely (steps evs w)
  /\ outcome_has_timer (steps evs w).
Proof.
  revert w. induction evs as [|ev evs IH]; intros w Hr Ht Ho Hevs; [done|].
  simpl in Hevs. apply andb_prop in Hevs as [Hev Hevs]. simpl.
  apply IH; [by apply reverts_only_step|by apply timely_step
            |by apply outcome_has_timer_step|done].
Qed.

(** X15.  An outcome never sticks.  In every state that the panel reaches,
    a status [success] or [error] is back to [idle] once 3000 ms have
    passed, whatever was clicked and answered before. *)
Theorem outcome_reverts_within_delay (evs : list Event) (k : Job) :
  allowed evs mounted = true ->
  let w := steps evs mounted in
  status k (panel w) = success \/ status k (panel w) = error ->
  status k (panel (step w (Elapse 3000))) = idle.
Proof.
  intros Hevs w Hk.
  destruct (panel_invariants evs mounted) as (Hr & Ht & Ho); [..|done|].
  - apply reverts_only_mounted.
  - intros tm Htm. by apply elem_of_nil in Htm.
  - intros j [Hj | Hj]; destruct j; discriminate Hj.
  - destruct (Ho k Hk) as (tm & Htm & Hcb).
    apply (proj1 (elapse_status w 3000 k Hr)).
    exists tm. split; [done|]. split; [done|]. apply (Ht tm Htm).
Qed.

End PanelLifecycle.

Section PanelPolls.
Context `{Host}.
Import ControlPanel PanelView.

Lemma ticks_add (a b c : Z) :
  a <= b -> b <= c -> (ticks a b + ticks b c)%nat = ticks a c.
Proof.
  intros Hab Hbc. unfold ticks.
  pose proof (Z.div_le_mono a b 10000 eq_refl Hab).
  pose proof (Z.div_le_mono b c 10000 eq_refl Hbc).
  lia.
Qed.

Lemma polls_step (w : World) (ev : Event) :
  enabled w ev = true ->
  now w <= now (step w ev) /\
  (health_in_flight (step w ev) + (if is_health_reply ev then 1 else 0))%nat
  = (health_in_flight w + ticks (now w) (now (step w ev)))%nat.
Proof.
  assert (ticks (now w) (now w) = 0%nat) as Hsame
    by (unfold ticks; by rewrite Z.sub_diag).
  intros Hev. destruct ev as [k|id response|response|ms]; cbn [step is_health_reply].
  - cbn [now health_in_flight]. rewrite Hsame. lia.
  - destruct (calls w !! id) as [k|]; [case_bool_decide|];
      cbn [now health_in_flight]; rewrite Hsame; lia.
  - cbn [now health_in_flight enabled] in *. rewrite Hsame.
    apply Nat.ltb_lt in Hev. lia.
  - cbn [now health_in_flight enabled] in *. apply Z.leb_le in Hev. lia.
Qed.

Lemma polls_steps (evs : list Event) (w : World) :
  allowed evs w = true ->
  now w <= now (steps evs w) /\
  (health_in_flight (steps evs w)
   + length (filter (fun ev => is_health_reply ev) evs))%nat
  = (health_in_flight w + ticks (now w) (now (steps evs w)))%nat.
Proof.
  revert w. induction evs as [|ev evs IH]; intros w Hevs.
  - simpl. unfold ticks. rewrite Z.sub_diag. simpl. lia.
  - simpl in Hevs. apply andb_prop in Hevs as [Hev Hevs].
    destruct (polls_step w ev Hev) as [Hnow Hpolls].
    destruct (IH (step w ev) Hevs) as [Hnow' Hpolls'].
    cbn [steps fold_left] in *. fold (steps evs (step w ev)) in *.
    split; [lia|].
    rewrite <- (ticks_add (now w) (now (step w ev)) (now (steps evs (step w ev))))
      by done.
    destruct (is_health_reply ev) eqn:Hreply.
    + rewrite filter_cons_True by (by rewrite Hreply). simpl. lia.
    + rewrite filter_cons_False by (rewrite Hreply; intros []). lia.
Qed.

(** X16.  The health poll runs on its own clock: however the triggers are
    used, the polls issued by time [t] (those answered and those still in
    flight) are the one of the mount and one for every full 10000 ms that
    have passed. *)
Theorem health_polls_are_periodic (evs : list Event) :
  allowed evs mounted = true ->
  let w := steps evs mounted in
  0 <= now w /\
  (health_in_flight w + length (filter (fun ev => is_health_reply ev) evs))%nat
  = (1 + Z.to_nat (now w / 10000))%nat.
Proof.
  intros Hevs w. destruct (polls_steps evs mounted Hevs) as [Hnow Hpolls].
  split; [done|]. fold w in Hpolls. rewrite Hpolls. unfold ticks. simpl.
  by rewrite Z.sub_0_r.
Qed.



(** X19.  The health card after a poll: "operational" exactly when the
    response body has the [status] ['ok']; after a failed poll, "System
    Error" with the message of the error; and a body that is [null] leaves
    the spinner of the first load. *)
Theorem health_card_after_poll (response : Result Value) (st : State) :
  let card := healthCard (health (run (checkHealth_resume response) st)) in
  (card = Ok Operational
   <-> exists data, response = Ok data /\ JS.field data "status" = Str "ok") /\
  (forall err, response = Throw err -> card = Ok (SystemError (message_of err))) /\
  (response = Ok Null -> card = Ok Checking).
Proof.
  intros card. subst card. split; [|split].
  - destruct response as [data|err]; cbn [checkHealth_resume run fold_left apply health].
    + split.
      * intros Hcard. exists data. split; [done|].
        destruct data; cbn in Hcard; try discriminate.
        all: try (destruct (JS.lookup "status" fields) as [| | | |s| |] eqn:Hs;
                  cbn in Hcard; try discriminate;
                  destruct (String.eqb_spec s "ok") as [->|]; [done|discriminate]).
      * intros (data' & [= <-] & Hstatus).
        destruct data; cbn in Hstatus; try discriminate.
        cbn. by rewrite Hstatus.
    + split; [discriminate|]. by intros (data & [=] & _).
  - by intros err ->.
  - by intros ->.
Qed.

End PanelPolls.

Section PanelLifecycleExamples.
Import ControlPanel PanelView.
Existing Instance ExampleHost.host.

Lemma trigger_lifecycle_witness :
  quiet import mounted /\
  let w2 := steps [Click import; Reply 0 scraper_busy] mounted in
  status import (panel w2) = error /\
  status import (panel (step w2 (Elapse 2999))) = error /\
  status import (panel (step w2 (Elapse 3000))) = idle.
Proof.
  assert (quiet import mounted) as Hquiet by apply quiet_mounted.
  split; [exact Hquiet|].
  destruct (trigger_lifecycle import mounted scraper_busy Hquiet)
    as (_ & _ & _ & Hstatus & _ & Helapse).
  intros w2. split; [exact Hstatus|]. split.
  - exact (Helapse 2999).
  - exact (Helapse 3000).
Defined.

Lemma outcome_reverts_within_delay_witness :
  allowed retrigger mounted = true /\
  status scrape (panel (steps retrigger mounted)) = success /\
  status scrape (panel (step (steps retrigger mounted) (Elapse 3000))) = idle.
Proof.
  assert (allowed retrigger mounted = true) as Hevs by reflexivity.
  assert (status scrape (panel (steps retrigger mounted)) = success) as Hk
    by reflexivity.
  split; [exact Hevs|]. split; [exact Hk|].
  exact (outcome_reverts_within_delay retrigger scrape Hevs (or_introl Hk)).
Defined.

Lemma health_polls_are_periodic_witness :
  let evs := [ Click scrape; HealthReply (Throw (AxiosError "Network Error" None));
               Elapse 25000; Reply 0 started;
               HealthReply (Ok (Obj [("status", Str "ok")])) ] in
  allowed evs mounted = true /\
  now (steps evs mounted) = 25000 /\
  (health_in_flight (steps evs mounted) + 2 = 1 + 2)%nat.
Proof.
  intros evs.
  assert (allowed evs mounted = true) as Hevs by reflexivity.
  split; [exact Hevs|]. split; [reflexivity|].
  exact (proj2 (health_polls_are_periodic evs Hevs)).
Defined.



Lemma health_card_after_poll_witness :
  let err := AxiosError "timeout of 1000ms exceeded" None in
  @Throw Value err = Throw err /\
  healthCard (health (run (checkHealth_resume (Throw err)) initial))
  = Ok (SystemError (Str "timeout of 1000ms exceeded")).
Proof.
  intros err. split; [reflexivity|].
  exact (proj1 (proj2 (health_card_after_poll (Throw err) initial)) err eq_refl).
Defined.

End PanelLifecycleExamples.
